(** * LeafSense dashboard: the refresh / transform / render pipeline

    A shallow embedding of the client script [web/static/js/dashboard.js]
    (module [Dashboard]) and of the older jQuery variant of the same script,
    the one with the [pauseUpdates] gate (module [PauseVariant]).

    Conventions of the embedding.
    - A JavaScript number is modelled by the rational it denotes ([Q]).  Every
      finite double is a rational, and the operations the transform applies to
      the fetched numbers (the sign of a difference, [Math.abs], unary minus,
      the truthiness test of [x || 0]) are exact on doubles, so nothing is
      rounded on that path.  [NaN] and the infinities are not JSON values.
      The placeholder values, which the script computes itself, are rounded
      to doubles operation by operation ([binary64]).
    - A field the backend may send as [null] is an [option Q].
    - The object literals handed to Plotly are kept as trees ([JsVal]), key by
      key in source order.
    - [Math.random] is an explicit stream of draws and a cursor into it.
    - The page is an explicit state; every listener, timer callback and
      promise continuation is a function on that state. *)

From Stdlib Require Import List String Bool Arith PeanoNat Lia.
From Stdlib Require Import ZArith QArith Qabs Qround Qpower Lqa.
From Stdlib Require Import Sorting.Sorted Sorting.Permutation FinFun.
Import ListNotations.

Local Open Scope string_scope.
Local Open Scope list_scope.
Local Open Scope nat_scope.

(** ** JavaScript values *)

#[local] Set Warnings "-register-all".

Inductive JsVal : Type :=
| JNum (q : Q)
| JStr (s : string)
| JBool (b : bool)
| JArr (items : list JsVal)
| JObj (fields : list (string * JsVal)).

(** [o[k]] on an object literal; [None] stands for [undefined]. *)
Fixpoint assoc (k : string) (fields : list (string * JsVal)) : option JsVal :=
  match fields with
  | [] => None
  | (k', v) :: rest => if String.eqb k k' then Some v else assoc k rest
  end.

Definition get (k : string) (v : JsVal) : option JsVal :=
  match v with
  | JObj fields => assoc k fields
  | _ => None
  end.

Definition nums (l : list Q) : JsVal := JArr (map JNum l).

Definition strs (l : list string) : JsVal := JArr (map JStr l).

(** Reads back an array of numbers. *)
Fixpoint as_nums_list (l : list JsVal) : option (list Q) :=
  match l with
  | [] => Some []
  | JNum q :: rest =>
      match as_nums_list rest with
      | Some qs => Some (q :: qs)
      | None => None
      end
  | _ :: _ => None
  end.

Definition as_nums (v : JsVal) : option (list Q) :=
  match v with
  | JArr l => as_nums_list l
  | _ => None
  end.

(** ** Numbers *)

(** [a < b] on numbers. *)
Definition Qlt_bool (a b : Q) : bool := negb (Qle_bool b a).

(** *** Arithmetic in doubles

    Where the script computes with numbers of its own making, the result of
    every operation is rounded to the nearest double, ties to the even
    mantissa.  [binary64 x] is that double, for [x] of magnitude below
    2^1024: 53 bits of mantissa, and a unit in the last place no finer than
    2^-1074. *)

(** [floor (log2 a)], for [a > 0]. *)
Definition ilog2 (a : Q) : Z :=
  let k := (Z.log2 (Qnum a) - Z.log2 (Zpos (Qden a)))%Z in
  if Qle_bool (2 ^ k) a then k else (k - 1)%Z.

(** The nearest integer, the even one of two nearest. *)
Definition round_half_even (y : Q) : Z :=
  let f := Qfloor y in
  let r := (y - inject_Z f)%Q in
  if Qlt_bool r (1 # 2) then f
  else if Qlt_bool (1 # 2) r then (f + 1)%Z
  else if Z.even f then f else (f + 1)%Z.

(** The exponent of the unit in the last place of the doubles around [a]. *)
Definition ulp_exponent (a : Q) : Z := Z.max (ilog2 a - 52) (-1074).

Definition binary64 (x : Q) : Q :=
  if Qeq_bool x 0 then 0%Q
  else
    let a := Qabs x in
    let q := ulp_exponent a in
    let v := Qred (inject_Z (round_half_even (a / 2 ^ q)) * 2 ^ q) in
    if Qle_bool 0 x then v else (- v)%Q.

(** The string [x.toFixed(2)], for [x] below 1e21: an optional minus sign and
    the integer [n] for which [n / 100] is closest to [|x|], the larger one on
    a tie. *)
Record Fixed2 := {
  minus : bool;
  hundredths : Z
}.

Definition toFixed2 (x : Q) : Fixed2 :=
  {| minus := Qlt_bool x 0;
     hundredths := Qfloor (Qabs x * 100 + (1 # 2)) |}.

(** [s > 0] for a string [s] produced by [toFixed]. *)
Definition fixed_positive (s : Fixed2) : bool :=
  negb (minus s) && (0 <? hundredths s)%Z.

(** ** Array.prototype.sort and Array.prototype.filter

    [sort] is the stable sort the language prescribes: an element moves in
    front of another one only when the comparator is strictly positive for
    the pair in their current order.  For a consistent comparator the result
    of a stable sort is unique, so the insertion sort below computes what any
    conforming engine computes. *)

Section Arrays.
Context {A : Type}.

Section Sort.
Variable compareFn : A -> A -> Q.

Fixpoint sort_insert (x : A) (l : list A) : list A :=
  match l with
  | [] => [x]
  | y :: rest =>
      if Qle_bool (compareFn x y) 0 then x :: y :: rest
      else y :: sort_insert x rest
  end.

Definition sort (l : list A) : list A := fold_right sort_insert [] l.
End Sort.

(** The order a numeric key induces on the elements. *)
Definition key_le (key : A -> Q) (a b : A) : Prop := (key a <= key b)%Q.

(** [arr.filter((item, index, arr) => ...)]: the callback sees the element,
    its index and the whole array. *)
Fixpoint filter_from (f : A -> nat -> list A -> bool) (arr : list A)
         (index : nat) (l : list A) : list A :=
  match l with
  | [] => []
  | item :: rest =>
      if f item index arr then item :: filter_from f arr (S index) rest
      else filter_from f arr (S index) rest
  end.

Definition filter_indexed (f : A -> nat -> list A -> bool) (arr : list A) : list A :=
  filter_from f arr 0 arr.
End Arrays.

(** ** Requests in flight

    Every request is numbered by its position in the log of requests; its
    continuation waits under that number until the request settles. *)

Section InFlight.
Context {K : Type}.

(** Takes the continuation waiting under [id] out of the pending list. *)
Fixpoint take (id : nat) (ps : list (nat * K)) : option (K * list (nat * K)) :=
  match ps with
  | [] => None
  | (i, k) :: rest =>
      if i =? id then Some (k, rest)
      else match take id rest with
           | Some (k', rest') => Some (k', (i, k) :: rest')
           | None => None
           end
  end.
End InFlight.

(** ** The exposure transform of dashboard.js *)

Module Dashboard.

(** One element of the [/api/gamma-exposure/] payload. *)
Record ExposureRecord := {
  strike_price : Q;
  call_gamma_exposure : option Q;
  put_gamma_exposure : option Q;
  total_gamma_exposure : option Q
}.

(** [x || 0]: [null] and zero are falsy. *)
Definition or_zero (x : option Q) : Q :=
  match x with
  | None => 0%Q
  | Some q => if Qeq_bool q 0 then 0%Q else q
  end.

(** [(a, b) => a.strike_price - b.strike_price] *)
Definition by_strike (a b : ExposureRecord) : Q :=
  (strike_price a - strike_price b)%Q.

Definition sortedData (exposureData : list ExposureRecord) : list ExposureRecord :=
  sort by_strike exposureData.

(** [Math.max(1, Math.floor(arr.length / 20))] *)
Definition step_of (arr : list ExposureRecord) : nat :=
  Nat.max 1 (List.length arr / 20).

Definition keep_nth (item : ExposureRecord) (index : nat) (arr : list ExposureRecord) : bool :=
  index mod step_of arr =? 0.

Definition filteredData (exposureData : list ExposureRecord) : list ExposureRecord :=
  filter_indexed keep_nth (sortedData exposureData).

Definition call_value (item : ExposureRecord) : Q := or_zero (call_gamma_exposure item).
Definition put_value (item : ExposureRecord) : Q :=
  (- Qabs (or_zero (put_gamma_exposure item)))%Q.
Definition net_value (item : ExposureRecord) : Q := or_zero (total_gamma_exposure item).

Definition strikes (exposureData : list ExposureRecord) : list Q :=
  map strike_price (filteredData exposureData).
Definition callValues (exposureData : list ExposureRecord) : list Q :=
  map call_value (filteredData exposureData).
Definition putValues (exposureData : list ExposureRecord) : list Q :=
  map put_value (filteredData exposureData).
Definition netValues (exposureData : list ExposureRecord) : list Q :=
  map net_value (filteredData exposureData).

Definition hover_bar : string := "Strike: %{y}<br>Gamma: %{x:.2f}<extra></extra>".
Definition hover_net : string := "Strike: %{y}<br>Net Gamma: %{x:.2f}<extra></extra>".

(** The three traces of the branch taken for a non-empty payload. *)
Definition real_traces (exposureData : list ExposureRecord) : list JsVal :=
  [ JObj [ ("y", nums (strikes exposureData));
           ("x", nums (callValues exposureData));
           ("name", JStr "Calls (Long)");
           ("type", JStr "bar");
           ("orientation", JStr "h");
           ("marker", JObj [("color", JStr "#4caf50")]);
           ("hovertemplate", JStr hover_bar) ];
    JObj [ ("y", nums (strikes exposureData));
           ("x", nums (putValues exposureData));
           ("name", JStr "Puts (Short)");
           ("type", JStr "bar");
           ("orientation", JStr "h");
           ("marker", JObj [("color", JStr "#f44336")]);
           ("hovertemplate", JStr hover_bar) ];
    JObj [ ("y", nums (strikes exposureData));
           ("x", nums (netValues exposureData));
           ("name", JStr "Net Gamma");
           ("type", JStr "scatter");
           ("mode", JStr "lines+markers");
           ("line", JObj [("color", JStr "#2196f3"); ("width", JNum 3)]);
           ("marker", JObj [("size", JNum 8)]);
           ("hovertemplate", JStr hover_net) ] ].

(** [Math.random]: [draws] is the sequence of doubles the engine would
    return, [cursor] the number of draws made so far. *)
Record Random := {
  draws : nat -> Q;
  cursor : nat
}.

Definition sample_strikes : list Q := [5550; 5600; 5650; 5700; 5750]%Q.

(** [strikes.map(() => Math.random() * 100 + 20)], draws taken left to right;
    the product and the sum are each rounded to a double. *)
Definition sample_calls (r : Random) : list Q :=
  map (fun i => binary64 (binary64 (draws r (cursor r + i) * 100) + 20))
      (seq 0 (List.length sample_strikes)).

(** [strikes.map(() => -Math.random() * 100 - 20)], after the call draws;
    the negation is exact, the product and the difference are rounded. *)
Definition sample_puts (r : Random) : list Q :=
  map (fun i =>
         binary64
           (binary64 (- draws r (cursor r + List.length sample_strikes + i) * 100)
            - 20))
      (seq 0 (List.length sample_strikes)).

(** The two traces of the else branch. *)
Definition sample_traces (r : Random) : list JsVal :=
  [ JObj [ ("y", nums sample_strikes);
           ("x", nums (sample_calls r));
           ("name", JStr "Calls (Sample)");
           ("type", JStr "bar");
           ("orientation", JStr "h");
           ("marker", JObj [("color", JStr "#4caf50")]) ];
    JObj [ ("y", nums sample_strikes);
           ("x", nums (sample_puts r));
           ("name", JStr "Puts (Sample)");
           ("type", JStr "bar");
           ("orientation", JStr "h");
           ("marker", JObj [("color", JStr "#f44336")]) ] ].

Definition layout_of (isDarkMode : bool) (expiry : string) : JsVal :=
  JObj [ ("title", JStr ("Gamma Exposure by Strike (" ++ expiry ++ ")"));
         ("barmode", JStr "relative");
         ("xaxis", JObj [ ("title", JStr "Gamma Exposure");
                          ("zeroline", JBool true);
                          ("zerolinecolor", JStr (if isDarkMode then "#e0e0e0" else "#333333"));
                          ("gridcolor", JStr (if isDarkMode then "#3a4254" else "#d1e0d4")) ]);
         ("yaxis", JObj [ ("title", JStr "Strike Price");
                          ("type", JStr "category");
                          ("autorange", JBool true);
                          ("gridcolor", JStr (if isDarkMode then "#3a4254" else "#d1e0d4")) ]);
         ("plot_bgcolor", JStr (if isDarkMode then "#242937" else "#ffffff"));
         ("paper_bgcolor", JStr (if isDarkMode then "#242937" else "#ffffff"));
         ("font", JObj [ ("color", JStr (if isDarkMode then "#e0e0e0" else "#333333")) ]);
         ("legend", JObj [ ("orientation", JStr "h"); ("y", JNum 1.1) ]);
         ("margin", JObj [ ("l", JNum 70); ("r", JNum 40); ("t", JNum 50); ("b", JNum 50) ]);
         ("hovermode", JStr "closest") ].

Definition config : JsVal :=
  JObj [ ("responsive", JBool true);
         ("displayModeBar", JBool true);
         ("displaylogo", JBool false);
         ("modeBarButtonsToRemove", strs ["lasso2d"; "select2d"]) ].

(** What [Plotly.newPlot(container, data, layout, config)] receives. *)
Record Plot := {
  plot_data : list JsVal;
  plot_layout : JsVal;
  plot_config : JsVal
}.

(** [createGammaExposurePlot(container, exposureData, expiry)].  [isDarkMode]
    is the class of the body at the time of the call; a payload of [null] is
    [None].  Returns the plot drawn into the container and the state of the
    random source after the call. *)
Definition createGammaExposurePlot (isDarkMode : bool) (r : Random)
           (exposureData : option (list ExposureRecord)) (expiry : string)
  : Plot * Random :=
  let '(data, r') :=
    match exposureData with
    | Some ((_ :: _) as records) => (real_traces records, r)
    | _ => (sample_traces r,
            {| draws := draws r; cursor := cursor r + 2 * List.length sample_strikes |})
    end in
  ({| plot_data := data;
      plot_layout := layout_of isDarkMode expiry;
      plot_config := config |}, r').

(** The numeric array under key [k] of the [i]-th trace of a plot. *)
Definition trace_nums (p : Plot) (i : nat) (k : string) : option (list Q) :=
  match nth_error (plot_data p) i with
  | Some t => match get k t with Some v => as_nums v | None => None end
  | None => None
  end.

(** *** The page and its listeners *)

(** The class of [document.body]: [dark-mode] or [light-mode].  The stored
    preference is only ever written by [toggleTheme], as "dark" or "light". *)
Inductive Theme := DarkMode | LightMode.

Definition isDarkMode (t : Theme) : bool :=
  match t with DarkMode => true | LightMode => false end.

(** The [/api/market-metrics/] payload. *)
Record MarketSnapshot := {
  spot_price : Q;
  price_change : Q;
  price_change_pct : Q;
  timestamp : string
}.

(** The four elements [updateMarketDisplay] writes.  The outer [option] is
    [None] when [querySelector] finds no such element; content [None] is the
    text the template shipped.  A text with a sign flag carries the "+"
    prefix when the flag is set; the flag next to the change value is its
    [positive] class. *)
Record MarketCard := {
  spot_value : option (option Fixed2);
  change_value : option (option (bool * Fixed2) * bool);
  change_absolute : option (option (bool * Fixed2));
  spot_timestamp : option (option string)
}.

(** The markup [updateThemeToggleIcon] writes: an [<i>] of class [fas fa-sun]
    or [fas fa-moon]. *)
Inductive Icon := FaSun | FaMoon.

(** What the gamma exposure container shows. *)
Inductive Card :=
| CardBlank
| CardLoading
| CardError
| CardPlot (p : Plot).

Inductive Pending :=
| AwaitMarket
| AwaitExposure (selectedExpiry : string).

(** How a [fetch(...).then(ok ? json : throw)] chain settles. *)
Inductive FetchResult (A : Type) :=
| NetworkError
| NotOk
| BadJson
| Json (data : A).
Arguments NetworkError {A}.
Arguments NotOk {A}.
Arguments BadJson {A}.
Arguments Json {A} data.

(** Whether the chain ends in its [catch]. *)
Definition failed {A : Type} (r : FetchResult A) : bool :=
  match r with
  | Json _ => false
  | _ => true
  end.

Record Page := {
  body_class : Theme;
  stored_theme : option Theme;           (* localStorage "theme" *)
  theme_toggle : Icon;                   (* the icon inside #theme-toggle *)
  expiry_select : option string;         (* value of #expiry-select *)
  tradingview_container : option (option Theme);
  gamma_exposure_chart : option Card;
  market_card : MarketCard;
  requests : list string;                (* URLs fetched so far, oldest first *)
  pending : list (nat * Pending);        (* fetches not settled yet *)
  console_errors : list string;
  random : Random
}.

Definition with_theme (t : Theme) (st : option Theme) (p : Page) : Page :=
  {| body_class := t; stored_theme := st; theme_toggle := theme_toggle p;
     expiry_select := expiry_select p;
     tradingview_container := tradingview_container p;
     gamma_exposure_chart := gamma_exposure_chart p;
     market_card := market_card p; requests := requests p;
     pending := pending p; console_errors := console_errors p;
     random := random p |}.

Definition with_theme_toggle (html : Icon) (p : Page) : Page :=
  {| body_class := body_class p; stored_theme := stored_theme p;
     theme_toggle := html; expiry_select := expiry_select p;
     tradingview_container := tradingview_container p;
     gamma_exposure_chart := gamma_exposure_chart p;
     market_card := market_card p; requests := requests p;
     pending := pending p; console_errors := console_errors p;
     random := random p |}.

Definition with_expiry_select (v : option string) (p : Page) : Page :=
  {| body_class := body_class p; stored_theme := stored_theme p;
     theme_toggle := theme_toggle p; expiry_select := v;
     tradingview_container := tradingview_container p;
     gamma_exposure_chart := gamma_exposure_chart p;
     market_card := market_card p; requests := requests p;
     pending := pending p; console_errors := console_errors p;
     random := random p |}.

Definition with_tradingview (w : option (option Theme)) (p : Page) : Page :=
  {| body_class := body_class p; stored_theme := stored_theme p;
     theme_toggle := theme_toggle p; expiry_select := expiry_select p;
     tradingview_container := w;
     gamma_exposure_chart := gamma_exposure_chart p;
     market_card := market_card p; requests := requests p;
     pending := pending p; console_errors := console_errors p;
     random := random p |}.

Definition with_chart (c : option Card) (r : Random) (p : Page) : Page :=
  {| body_class := body_class p; stored_theme := stored_theme p;
     theme_toggle := theme_toggle p; expiry_select := expiry_select p;
     tradingview_container := tradingview_container p;
     gamma_exposure_chart := c;
     market_card := market_card p; requests := requests p;
     pending := pending p; console_errors := console_errors p;
     random := r |}.

Definition with_market_card (m : MarketCard) (p : Page) : Page :=
  {| body_class := body_class p; stored_theme := stored_theme p;
     theme_toggle := theme_toggle p; expiry_select := expiry_select p;
     tradingview_container := tradingview_container p;
     gamma_exposure_chart := gamma_exposure_chart p;
     market_card := m; requests := requests p;
     pending := pending p; console_errors := console_errors p;
     random := random p |}.

Definition with_network (rs : list string) (ps : list (nat * Pending)) (p : Page) : Page :=
  {| body_class := body_class p; stored_theme := stored_theme p;
     theme_toggle := theme_toggle p; expiry_select := expiry_select p;
     tradingview_container := tradingview_container p;
     gamma_exposure_chart := gamma_exposure_chart p;
     market_card := market_card p; requests := rs;
     pending := ps; console_errors := console_errors p;
     random := random p |}.

Definition console_error (msg : string) (p : Page) : Page :=
  {| body_class := body_class p; stored_theme := stored_theme p;
     theme_toggle := theme_toggle p; expiry_select := expiry_select p;
     tradingview_container := tradingview_container p;
     gamma_exposure_chart := gamma_exposure_chart p;
     market_card := market_card p; requests := requests p;
     pending := pending p;
     console_errors := console_errors p ++ [msg];
     random := random p |}.

(** [fetch(url)]: the request leaves at once; its continuation waits under
    the number of the request. *)
Definition fetch (url : string) (k : Pending) (p : Page) : Page :=
  with_network (requests p ++ [url])
               (pending p ++ [(List.length (requests p), k)]) p.

Definition market_url : string := "/api/market-metrics/".

Definition exposure_url (selectedExpiry : string) : string :=
  "/api/gamma-exposure/?expiry_filter=" ++ selectedExpiry.

Definition updateThemeToggleIcon (p : Page) : Page :=
  with_theme_toggle
    (if isDarkMode (body_class p) then FaSun else FaMoon) p.

Definition loadMarketData (p : Page) : Page :=
  fetch market_url AwaitMarket p.

Definition initTradingViewWidget (p : Page) : Page :=
  match tradingview_container p with
  | None => p
  | Some _ => with_tradingview (Some (Some (body_class p))) p
  end.

Definition initGammaExposureChart (p : Page) : Page :=
  match gamma_exposure_chart p with
  | None => p
  | Some _ =>
      let selectedExpiry :=
        match expiry_select p with Some value => value | None => "All" end in
      fetch (exposure_url selectedExpiry) (AwaitExposure selectedExpiry)
            (with_chart (Some CardLoading) (random p) p)
  end.

Definition refreshData (p : Page) : Page :=
  initGammaExposureChart (loadMarketData p).

Definition updateGammaExposureChart (p : Page) : Page :=
  initGammaExposureChart p.

Definition toggleTheme (p : Page) : Page :=
  let p1 :=
    match body_class p with
    | DarkMode => with_theme LightMode (Some LightMode) p
    | LightMode => with_theme DarkMode (Some DarkMode) p
    end in
  initGammaExposureChart (initTradingViewWidget (updateThemeToggleIcon p1)).

Definition market_error : string := "Error fetching market data:".
Definition exposure_error : string := "Error fetching gamma exposure data:".

Section Handlers.
(** [new Date(ts)] as the timestamp line prints it: the local time and the
    GMT offset of the date's string form.  [None] when that string has no
    offset to match (an invalid date), where the template literal throws. *)
Variable localTime : string -> option string.

(** [updateMarketDisplay(data)]: the card after the call, and whether the
    call threw. *)
Definition updateMarketDisplay (data : MarketSnapshot) (c : MarketCard)
  : MarketCard * bool :=
  let spot :=
    match spot_value c with
    | None => None
    | Some _ => Some (Some (toFixed2 (spot_price data)))
    end in
  let change :=
    match change_value c with
    | None => None
    | Some _ =>
        let changeValue := toFixed2 (price_change_pct data) in
        Some (Some (fixed_positive changeValue, changeValue),
              Qle_bool 0 (price_change data))
    end in
  let absolute :=
    match change_absolute c with
    | None => None
    | Some _ =>
        Some (Some (Qlt_bool 0 (price_change data),
                    toFixed2 (price_change data)))
    end in
  match spot_timestamp c with
  | None =>
      ({| spot_value := spot; change_value := change;
          change_absolute := absolute; spot_timestamp := None |}, false)
  | Some old =>
      match localTime (timestamp data) with
      | Some text =>
          ({| spot_value := spot; change_value := change;
              change_absolute := absolute;
              spot_timestamp := Some (Some text) |}, false)
      | None =>
          ({| spot_value := spot; change_value := change;
              change_absolute := absolute;
              spot_timestamp := Some old |}, true)
      end
  end.

(** The [.then(...).then(...).catch(...)] chain of [loadMarketData]. *)
Definition marketSettled (id : nat) (r : FetchResult MarketSnapshot) (p : Page) : Page :=
  match take id (pending p) with
  | Some (AwaitMarket, rest) =>
      let p' := with_network (requests p) rest p in
      match r with
      | Json data =>
          let '(card, threw) := updateMarketDisplay data (market_card p') in
          let p'' := with_market_card card p' in
          if threw then console_error market_error p'' else p''
      | _ => console_error market_error p'
      end
  | _ => p
  end.

(** The chain of [initGammaExposureChart]; [container] and [selectedExpiry]
    are the ones the closure captured when the fetch was issued. *)
Definition exposureSettled (id : nat)
           (r : FetchResult (option (list ExposureRecord))) (p : Page) : Page :=
  match take id (pending p) with
  | Some (AwaitExposure selectedExpiry, rest) =>
      let p' := with_network (requests p) rest p in
      match r with
      | Json data =>
          let '(plot, r') :=
            createGammaExposurePlot (isDarkMode (body_class p')) (random p')
                                    data selectedExpiry in
          with_chart (Some (CardPlot plot)) r' p'
      | _ =>
          with_chart (Some CardError) (random p')
                     (console_error exposure_error p')
      end
  | _ => p
  end.

(** What can happen to the page once it is loaded.  A change event arrives
    after the browser has stored the new value in the select.  The load
    listener attaches the two change listeners one after the other, the one
    of [#expiry-select] first: on a page without that element it throws
    there, so neither select has a listener and its change does nothing. *)
Inductive Event :=
| IntervalElapsed
| ThemeToggleClick
| ExpirySelectChange (value : string)
| CustomerSelectChange
| MarketFetchSettled (id : nat) (r : FetchResult MarketSnapshot)
| ExposureFetchSettled (id : nat) (r : FetchResult (option (list ExposureRecord))).

Definition step (p : Page) (e : Event) : Page :=
  match e with
  | IntervalElapsed => refreshData p
  | ThemeToggleClick => toggleTheme p
  | ExpirySelectChange value =>
      match expiry_select p with
      | Some _ => updateGammaExposureChart (with_expiry_select (Some value) p)
      | None => p
      end
  | CustomerSelectChange =>
      match expiry_select p with
      | Some _ => updateGammaExposureChart p
      | None => p
      end
  | MarketFetchSettled id r => marketSettled id r p
  | ExposureFetchSettled id r => exposureSettled id r p
  end.

Definition run (es : list Event) (p : Page) : Page := fold_left step es p.
End Handlers.

(** Request numbers are positions in the log, so every pending number lies
    below the length of the log and no two pending entries share one. *)
Definition well_numbered (p : Page) : Prop :=
  Forall (fun ik => fst ik < List.length (requests p)) (pending p).

Definition selected_expiry (p : Page) : string :=
  match expiry_select p with Some v => v | None => "All" end.

Definition flip (t : Theme) : Theme :=
  match t with DarkMode => LightMode | LightMode => DarkMode end.

(** The [DOMContentLoaded] listener, on the freshly parsed document.  The
    timer is set and the listener of the theme toggle attached before the
    listener looks up [#expiry-select]; without that element
    [addEventListener] is called on [null] and throws, and what follows,
    [loadMarketData] included, does not run.  The customer select, the
    toggle and the notes editor (which shares no state with the pipeline)
    are those of the template. *)
Definition DOMContentLoaded (p : Page) : Page :=
  let currentTheme :=
    match stored_theme p with Some t => t | None => DarkMode end in
  let p1 := updateThemeToggleIcon (with_theme currentTheme (stored_theme p) p) in
  let p2 := initGammaExposureChart (initTradingViewWidget p1) in
  match expiry_select p2 with
  | Some _ => loadMarketData p2
  | None => p2
  end.

(** [templates/index.html] as parsed, before any script ran. *)
Definition index_html (stored : option Theme) (r : Random) : Page :=
  {| body_class := DarkMode; stored_theme := stored; theme_toggle := FaSun;
     expiry_select := Some "all";
     tradingview_container := Some None;
     gamma_exposure_chart := Some CardBlank;
     market_card := {| spot_value := Some None;
                       change_value := Some (None, true);
                       change_absolute := Some None;
                       spot_timestamp := Some None |};
     requests := []; pending := []; console_errors := [];
     random := r |}.

End Dashboard.

(** ** The jQuery variant of the script, with the pause gate *)

Module PauseVariant.

(** [$.ajax({url, method: "GET", data})] *)
Record Request := {
  url : string;
  data : list (string * string)
}.

Record Metrics := {
  spot_price : Q;
  price_change_pct : Q
}.

(** A row of the payload as the callback reads it; [total_gamma] is [None]
    when the row has [null] there or no such field. *)
Record GammaRow := {
  strike_price : Q;
  total_gamma : option Q
}.

(** What [Plotly.newPlot("gammaPlot", plotData, layout)] receives, as far as
    it depends on the rows and on [darkMode]. *)
Record BarChart := {
  bar_y : list Q;
  bar_x : list Q;
  bar_color : list string;
  bar_text : list Fixed2;
  plot_bgcolor : string;
  paper_bgcolor : string;
  font_color : string
}.

Inductive Pending := MetricsCall | GammaCall.

Inductive AjaxResult (A : Type) :=
| Success (payload : A)
| Error.
Arguments Success {A} payload.
Arguments Error {A}.

Record Page := {
  pauseUpdates : bool;
  currentExpiryFilter : string;
  darkMode : bool;
  requests : list Request;
  pending : list (nat * Pending);
  metric_1_value : option Metrics;       (* the snapshot #metric-1-value prints *)
  gammaPlot : option BarChart;
  console_errors : list string
}.

Definition ajax (r : Request) (k : Pending) (p : Page) : Page :=
  {| pauseUpdates := pauseUpdates p;
     currentExpiryFilter := currentExpiryFilter p;
     darkMode := darkMode p;
     requests := requests p ++ [r];
     pending := pending p ++ [(List.length (requests p), k)];
     metric_1_value := metric_1_value p;
     gammaPlot := gammaPlot p;
     console_errors := console_errors p |}.

Definition loadMarketMetrics (p : Page) : Page :=
  if pauseUpdates p then p
  else ajax {| url := "/api/market-metrics"; data := [] |} MetricsCall p.

Definition loadGammaExposureData (p : Page) : Page :=
  if pauseUpdates p then p
  else ajax {| url := "/api/gamma-exposure";
               data := [("expiry_filter", currentExpiryFilter p)] |}
            GammaCall p.

Definition refreshData (p : Page) : Page :=
  if negb (pauseUpdates p) then loadGammaExposureData (loadMarketMetrics p)
  else p.

Definition refreshCharts (p : Page) : Page :=
  loadGammaExposureData p.

(** The change listener of the [#pauseUpdates] checkbox. *)
Definition pauseUpdatesChange (checked : bool) (p : Page) : Page :=
  {| pauseUpdates := checked;
     currentExpiryFilter := currentExpiryFilter p;
     darkMode := darkMode p;
     requests := requests p;
     pending := pending p;
     metric_1_value := metric_1_value p;
     gammaPlot := gammaPlot p;
     console_errors := console_errors p |}.

(** The change listener of the [#expiryFilter] dropdown. *)
Definition expiryFilterChange (val : string) (p : Page) : Page :=
  loadGammaExposureData
    {| pauseUpdates := pauseUpdates p;
       currentExpiryFilter := val;
       darkMode := darkMode p;
       requests := requests p;
       pending := pending p;
       metric_1_value := metric_1_value p;
       gammaPlot := gammaPlot p;
       console_errors := console_errors p |}.

(** The values of an array none of which is [null] or [undefined]. *)
Fixpoint all_present (vals : list (option Q)) : option (list Q) :=
  match vals with
  | [] => Some []
  | Some v :: rest =>
      match all_present rest with
      | Some vs => Some (v :: vs)
      | None => None
      end
  | None :: _ => None
  end.

(** [drawGammaExposureChart(data)]: the chart handed to Plotly, or [None]
    when [val.toFixed(2)] throws on a row without [total_gamma], before
    Plotly is called. *)
Definition drawGammaExposureChart (dark : bool) (rows : list GammaRow)
  : option BarChart :=
  let strikes := map strike_price rows in
  let gammaValues := map total_gamma rows in
  match all_present gammaValues with
  | None => None
  | Some values =>
      Some {| bar_y := strikes;
              bar_x := values;
              bar_color := map (fun val => if Qle_bool 0 val
                                           then "rgba(0, 255, 0, 0.7)"
                                           else "rgba(255, 0, 0, 0.7)") values;
              bar_text := map toFixed2 values;
              plot_bgcolor := if dark then "rgb(29, 32, 33)" else "white";
              paper_bgcolor := if dark then "rgb(29, 32, 33)" else "white";
              font_color := if dark then "white" else "black" |}
  end.

(** The [success] and [error] callbacks of [loadMarketMetrics]. *)
Definition metricsSettled (id : nat) (r : AjaxResult Metrics) (p : Page) : Page :=
  match take id (pending p) with
  | Some (MetricsCall, rest) =>
      match r with
      | Success payload =>
          {| pauseUpdates := pauseUpdates p;
             currentExpiryFilter := currentExpiryFilter p;
             darkMode := darkMode p;
             requests := requests p;
             pending := rest;
             metric_1_value := Some payload;
             gammaPlot := gammaPlot p;
             console_errors := console_errors p |}
      | Error =>
          {| pauseUpdates := pauseUpdates p;
             currentExpiryFilter := currentExpiryFilter p;
             darkMode := darkMode p;
             requests := requests p;
             pending := rest;
             metric_1_value := metric_1_value p;
             gammaPlot := gammaPlot p;
             console_errors :=
               console_errors p ++ ["Error fetching market metrics:"] |}
      end
  | _ => p
  end.

(** The [success] and [error] callbacks of [loadGammaExposureData].  When
    the drawing throws, the exception leaves the callback uncaught and the
    chart drawn before stays. *)
Definition gammaSettled (id : nat) (r : AjaxResult (list GammaRow)) (p : Page) : Page :=
  match take id (pending p) with
  | Some (GammaCall, rest) =>
      match r with
      | Success payload =>
          {| pauseUpdates := pauseUpdates p;
             currentExpiryFilter := currentExpiryFilter p;
             darkMode := darkMode p;
             requests := requests p;
             pending := rest;
             metric_1_value := metric_1_value p;
             gammaPlot :=
               match drawGammaExposureChart (darkMode p) payload with
               | Some chart => Some chart
               | None => gammaPlot p
               end;
             console_errors := console_errors p |}
      | Error =>
          {| pauseUpdates := pauseUpdates p;
             currentExpiryFilter := currentExpiryFilter p;
             darkMode := darkMode p;
             requests := requests p;
             pending := rest;
             metric_1_value := metric_1_value p;
             gammaPlot := gammaPlot p;
             console_errors :=
               console_errors p ++ ["Error fetching gamma exposure data:"] |}
      end
  | _ => p
  end.

End PauseVariant.

(** ** Concrete pages and payloads *)

Module Samples.
Import Dashboard.

Definition record (strike call put total : Q) : ExposureRecord :=
  {| strike_price := strike;
     call_gamma_exposure := Some call;
     put_gamma_exposure := Some put;
     total_gamma_exposure := Some total |}.

(** The two records of the worked example. *)
Definition two_records : list ExposureRecord :=
  [ record 100 5 3 2; record 90 1 9 (-8) ]%Q.

(** Forty-five records, strikes descending from 5720 in steps of 5, with put
    exposures of both signs. *)
Definition many_records : list ExposureRecord :=
  map (fun i : nat =>
         let z := Z.of_nat i in
         record (inject_Z (5720 - 5 * z)) (inject_Z z)
                (inject_Z (z - 20)) (inject_Z (2 * z - 20)))
      (seq 0 45).

(** The record fed back into the transform: its put exposure is the put
    value the transform emitted for it. *)
Definition feed_back_put (item : ExposureRecord) : ExposureRecord :=
  {| strike_price := strike_price item;
     call_gamma_exposure := call_gamma_exposure item;
     put_gamma_exposure := Some (put_value item);
     total_gamma_exposure := total_gamma_exposure item |}.

Definition half : Random := {| draws := fun _ => 0.5%Q; cursor := 0 |}.

Definition quarter : Random := {| draws := fun _ => 0.25%Q; cursor := 7 |}.

Definition snapshot : MarketSnapshot :=
  {| spot_price := 5667.125; price_change := 1; price_change_pct := 0.02;
     timestamp := "2025-03-14T12:47:42Z" |}.

(** A clock that prints every timestamp. *)
Definition clock (ts : string) : option string := Some ts.

(** The page once its load listener has run. *)
Definition loaded : Page := DOMContentLoaded (index_html None half).

(** The loaded page after both initial fetches have settled with data. *)
Definition rendered : Page :=
  run clock [ ExposureFetchSettled 0 (Json (Some two_records));
              MarketFetchSettled 1 (Json snapshot) ] loaded.

Definition paused : PauseVariant.Page :=
  {| PauseVariant.pauseUpdates := true;
     PauseVariant.currentExpiryFilter := "All";
     PauseVariant.darkMode := true;
     PauseVariant.requests := [];
     PauseVariant.pending := [];
     PauseVariant.metric_1_value := None;
     PauseVariant.gammaPlot := None;
     PauseVariant.console_errors := [] |}.

End Samples.

(** ** The notes editor of dashboard.js *)

Module Notes.

(** The part of the page the notes functions touch: the toolbar, the editor
    and the stored item [spxDashboardNotes]. *)
Record NotesPage := {
  editor_buttons : nat;                (* how many .editor-btn elements *)
  editor_select : bool;                (* whether .editor-select exists *)
  notes_editor : option string;        (* innerHTML of #notes-editor *)
  spxDashboardNotes : option string;   (* the item in localStorage *)
  input_listener : bool                (* whether the editor saves on input *)
}.

(** [initRichTextEditor()]: without a button, the select or the editor it
    returns before any listener is attached. *)
Definition initRichTextEditor (n : NotesPage) : NotesPage :=
  if (editor_buttons n =? 0) || negb (editor_select n)
     || match notes_editor n with None => true | Some _ => false end
  then n
  else {| editor_buttons := editor_buttons n;
          editor_select := editor_select n;
          notes_editor := notes_editor n;
          spxDashboardNotes := spxDashboardNotes n;
          input_listener := true |}.

Definition saveNotes (content : string) (n : NotesPage) : NotesPage :=
  {| editor_buttons := editor_buttons n;
     editor_select := editor_select n;
     notes_editor := notes_editor n;
     spxDashboardNotes := Some content;
     input_listener := input_listener n |}.

(** [loadSavedNotes()]: [editor && savedNotes], so neither a missing item
    nor the empty string is written into the editor. *)
Definition loadSavedNotes (n : NotesPage) : NotesPage :=
  match notes_editor n, spxDashboardNotes n with
  | Some _, Some savedNotes =>
      if String.eqb savedNotes "" then n
      else {| editor_buttons := editor_buttons n;
              editor_select := editor_select n;
              notes_editor := Some savedNotes;
              spxDashboardNotes := spxDashboardNotes n;
              input_listener := input_listener n |}
  | _, _ => n
  end.

(** The two calls the load listener makes, in its order. *)
Definition notesLoaded (n : NotesPage) : NotesPage :=
  loadSavedNotes (initRichTextEditor n).

(** An [input] event: the browser has changed the content of the editor to
    [html] (typing, or a formatting command) and runs the listener, if one
    is attached. *)
Definition input (html : string) (n : NotesPage) : NotesPage :=
  match notes_editor n with
  | None => n
  | Some _ =>
      let n' := {| editor_buttons := editor_buttons n;
                   editor_select := editor_select n;
                   notes_editor := Some html;
                   spxDashboardNotes := spxDashboardNotes n;
                   input_listener := input_listener n |} in
      if input_listener n then saveNotes html n' else n'
  end.

(** The document parsed afresh, in a browser that kept [stored]: the four
    buttons, the select and the editor with its template text. *)
Definition notes_html (template : string) (stored : option string) : NotesPage :=
  {| editor_buttons := 4;
     editor_select := true;
     notes_editor := Some template;
     spxDashboardNotes := stored;
     input_listener := false |}.

(** Leaving the page and opening it again: only the stored item survives. *)
Definition reopened (template : string) (n : NotesPage) : NotesPage :=
  notesLoaded (notes_html template (spxDashboardNotes n)).

End Notes.

(** ** Predicates and pages the further properties speak about *)

Module Cases.
Import Dashboard.

(** No two records of the payload have the same strike. *)
Definition distinct_strikes (records : list ExposureRecord) : Prop :=
  NoDup records
  /\ forall a b, In a records -> In b records ->
                 (strike_price a == strike_price b)%Q -> a = b.

(** Every draw of the random source lies in [0, 1), as [Math.random]
    promises. *)
Definition unit_draws (r : Random) : Prop :=
  forall i, (0 <= draws r i)%Q /\ (draws r i < 1)%Q.

(** A random source whose every draw is the double nearest to 0.1. *)
Definition tenth : Random :=
  {| draws := fun _ => (3602879701896397 # 36028797018963968)%Q; cursor := 3 |}.

(** The theme shows the same everywhere: the icon is the sun exactly in dark
    mode, a stored preference is the class of the body, and the price
    widget, where there is one, was built for that class. *)
Definition theme_consistent (p : Page) : Prop :=
  theme_toggle p = (if isDarkMode (body_class p) then FaSun else FaMoon)
  /\ (stored_theme p = None \/ stored_theme p = Some (body_class p))
  /\ (tradingview_container p = None
      \/ tradingview_container p = Some (Some (body_class p))).

(** A listener, as opposed to the settlement of a fetch. *)
Definition is_trigger (e : Event) : bool :=
  match e with
  | MarketFetchSettled _ _ | ExposureFetchSettled _ _ => false
  | _ => true
  end.

(** The page as [index.html] without the chart container would load. *)
Definition no_chart (r : Random) : Page :=
  {| body_class := DarkMode; stored_theme := None; theme_toggle := FaSun;
     expiry_select := Some "all";
     tradingview_container := Some None;
     gamma_exposure_chart := None;
     market_card := {| spot_value := Some None;
                       change_value := Some (None, true);
                       change_absolute := Some None;
                       spot_timestamp := Some None |};
     requests := []; pending := []; console_errors := [];
     random := r |}.

(** Two expiry changes in a row on the rendered page: both fetches are in
    flight and the select shows "monthly". *)
Definition two_in_flight : Page :=
  run Samples.clock [ ExpirySelectChange "weekly"; ExpirySelectChange "monthly" ]
      Samples.rendered.

(** Forty-four records with distinct strikes, ascending. *)
Definition forty_four : list ExposureRecord :=
  map (fun i : nat =>
         let z := Z.of_nat i in
         Samples.record (inject_Z (5500 + 5 * z)) (inject_Z z)
                        (inject_Z (10 - z)) (inject_Z (2 * z - 10)))
      (seq 0 44).


(** A page of the jQuery variant with an exposure call in flight. *)
Definition awaiting : PauseVariant.Page :=
  PauseVariant.loadGammaExposureData
    (PauseVariant.pauseUpdatesChange false Samples.paused).

(** What the user of the jQuery variant can do besides pausing: wait for
    the timer or choose an expiry filter. *)
Inductive VariantEvent :=
| TimerFired
| FilterChosen (val : string).

Definition variant_step (p : PauseVariant.Page) (e : VariantEvent)
  : PauseVariant.Page :=
  match e with
  | TimerFired => PauseVariant.refreshData p
  | FilterChosen val => PauseVariant.expiryFilterChange val p
  end.

(** The filter in force after the events, [current] if none chose one. *)
Definition last_filter (es : list VariantEvent) (current : string) : string :=
  fold_left (fun cur e => match e with FilterChosen val => val | TimerFired => cur end)
            es current.

End Cases.

(** * Properties *)

(** ** Arrays *)

Lemma as_nums_nums (l : list Q) : as_nums (nums l) = Some l.
Proof.
  unfold nums, as_nums.
  induction l as [|q l IH]; simpl; [reflexivity|].
  now rewrite IH.
Qed.

Section SortFacts.
Context {A : Type}.
Variable compareFn : A -> A -> Q.

Lemma sort_insert_perm (x : A) (l : list A) :
  Permutation (sort_insert compareFn x l) (x :: l).
Proof.
  induction l as [|y l IH]; simpl; [apply Permutation_refl|].
  destruct (Qle_bool (compareFn x y) 0); [apply Permutation_refl|].
  eapply Permutation_trans; [apply perm_skip, IH | apply perm_swap].
Qed.

Lemma sort_perm (l : list A) : Permutation (sort compareFn l) l.
Proof.
  induction l as [|x l IH]; simpl; [constructor|].
  eapply Permutation_trans; [apply sort_insert_perm | now apply perm_skip].
Qed.

Lemma sort_length (l : list A) : List.length (sort compareFn l) = List.length l.
Proof. apply Permutation_length, sort_perm. Qed.

(** The comparator of the script is the difference of a numeric key. *)
Variable key : A -> Q.
Hypothesis compare_key : forall x y, (compareFn x y == key x - key y)%Q.

Local Abbreviation le := (key_le key).

Lemma compare_le (x y : A) :
  Qle_bool (compareFn x y) 0 = true <-> le x y.
Proof.
  unfold key_le. rewrite Qle_bool_iff, compare_key. split; intro; lra.
Qed.

Lemma compare_gt (x y : A) :
  Qle_bool (compareFn x y) 0 = false -> (key y < key x)%Q.
Proof.
  intro H. apply Qnot_le_lt. intro Hle.
  assert (Qle_bool (compareFn x y) 0 = true) as E
      by (apply compare_le; exact Hle).
  congruence.
Qed.

Lemma sort_insert_sorted (x : A) (l : list A) :
  StronglySorted le l -> StronglySorted le (sort_insert compareFn x l).
Proof.
  induction 1 as [|y l Hs IH Hall]; simpl.
  - repeat constructor.
  - destruct (Qle_bool (compareFn x y) 0) eqn:E.
    + apply compare_le in E.
      constructor; [now constructor|].
      constructor; [exact E|].
      eapply Forall_impl; [|exact Hall].
      unfold key_le in *. intros z Hz. lra.
    + apply compare_gt in E.
      constructor; [exact IH|].
      eapply Permutation_Forall; [apply Permutation_sym, sort_insert_perm|].
      constructor; [unfold key_le; lra | exact Hall].
Qed.

Lemma sort_sorted (l : list A) : StronglySorted le (sort compareFn l).
Proof.
  induction l as [|x l IH]; simpl; [constructor|].
  now apply sort_insert_sorted.
Qed.

(** Stability: records of equal key keep their relative order. *)
Lemma sort_insert_stable (k : Q) (x : A) (l : list A) :
  filter (fun a => Qeq_bool (key a) k) (sort_insert compareFn x l)
  = filter (fun a => Qeq_bool (key a) k) (x :: l).
Proof.
  induction l as [|y l IH]; [reflexivity|].
  cbn [sort_insert].
  destruct (Qle_bool (compareFn x y) 0) eqn:E; [reflexivity|].
  apply compare_gt in E.
  cbn [filter] in *. rewrite IH.
  destruct (Qeq_bool (key y) k) eqn:Ey; [|reflexivity].
  destruct (Qeq_bool (key x) k) eqn:Ex; [|reflexivity].
  apply Qeq_bool_iff in Ey, Ex. lra.
Qed.

Lemma sort_stable (k : Q) (l : list A) :
  filter (fun a => Qeq_bool (key a) k) (sort compareFn l)
  = filter (fun a => Qeq_bool (key a) k) l.
Proof.
  induction l as [|x l IH]; [reflexivity|].
  cbn [sort fold_right]. rewrite sort_insert_stable.
  cbn [filter]. fold (sort compareFn l). now rewrite IH.
Qed.
End SortFacts.

Section FilterFacts.
Context {A : Type}.
Variable f : A -> nat -> list A -> bool.
Variable arr : list A.

Lemma filter_from_In (x : A) (i : nat) (l : list A) :
  In x (filter_from f arr i l) -> In x l.
Proof.
  revert i. induction l as [|y l IH]; intros i; simpl; [tauto|].
  destruct (f y i arr); simpl; intros H.
  - destruct H as [H|H]; [now left | right; eapply IH; eauto].
  - right; eapply IH; eauto.
Qed.

Lemma filter_from_sorted (R : A -> A -> Prop) (i : nat) (l : list A) :
  StronglySorted R l -> StronglySorted R (filter_from f arr i l).
Proof.
  intros H. revert i. induction H as [|y l Hs IH Hall]; intros i; simpl.
  - constructor.
  - destruct (f y i arr); [|apply IH].
    constructor; [apply IH|].
    apply Forall_forall. intros z Hz.
    apply filter_from_In in Hz.
    rewrite Forall_forall in Hall. now apply Hall.
Qed.

(** The predicate of the script looks at the index only: it keeps the
    multiples of a step [s]. *)
Variable s : nat.
Hypothesis s_pos : 0 < s.
Hypothesis f_step : forall item index, f item index arr = (index mod s =? 0).

Lemma filter_from_skip (c : nat) :
  forall (l : list A) (i : nat),
    (forall j, j < c -> (i + j) mod s <> 0) ->
    filter_from f arr i l = filter_from f arr (i + c) (skipn c l).
Proof.
  induction c as [|c IH]; intros l i H.
  - now rewrite Nat.add_0_r.
  - destruct l as [|x l]; [reflexivity|].
    cbn [filter_from skipn]. rewrite f_step.
    assert (i mod s <> 0) as Hi
        by (specialize (H 0); rewrite Nat.add_0_r in H; apply H; lia).
    apply Nat.eqb_neq in Hi. rewrite Hi.
    rewrite (IH l (S i)); [f_equal; lia|].
    intros j Hj. replace (S i + j) with (i + S j) by lia. apply H. lia.
Qed.

Lemma filter_from_nth (k : nat) :
  forall (l : list A) (m : nat),
    nth_error (filter_from f arr (m * s) l) k = nth_error l (k * s).
Proof.
  induction k as [|k IH]; intros l m.
  - destruct l as [|x l]; [reflexivity|].
    cbn [filter_from]. rewrite f_step, Nat.Div0.mod_mul. reflexivity.
  - destruct l as [|x l].
    + cbn [filter_from]. now rewrite !nth_error_nil.
    + cbn [filter_from]. rewrite f_step, Nat.Div0.mod_mul. cbn [Nat.eqb nth_error].
      rewrite (filter_from_skip (s - 1)).
      * replace (S (m * s) + (s - 1)) with (S m * s) by lia.
        rewrite IH, nth_error_skipn.
        replace (S k * s) with (S (s - 1 + k * s)) by lia.
        reflexivity.
      * intros j Hj.
        replace (S (m * s) + j) with (S j + m * s) by lia.
        rewrite Nat.Div0.mod_add, Nat.mod_small by lia. lia.
Qed.

Lemma filter_indexed_nth (k : nat) :
  nth_error (filter_from f arr 0 arr) k = nth_error arr (k * s).
Proof. exact (filter_from_nth k arr 0). Qed.

Lemma filter_indexed_length_le (k : nat) :
  List.length (filter_from f arr 0 arr) <= k <-> List.length arr <= k * s.
Proof.
  rewrite <- !nth_error_None. now rewrite filter_indexed_nth.
Qed.
End FilterFacts.

(** ** Doubles *)

Module Doubles.

Lemma two_power_pos (z : Z) : (0 < 2 ^ z)%Q.
Proof. apply Qpower_0_lt. reflexivity. Qed.

Lemma two_power_Z (n : Z) : (0 <= n)%Z -> (inject_Z (2 ^ n) == 2 ^ n)%Q.
Proof. intros H. now rewrite Zpower_Qpower. Qed.

Lemma ilog2_le (a : Q) : (0 < a)%Q -> (2 ^ ilog2 a <= a)%Q.
Proof.
  intros Ha. unfold ilog2.
  set (k := (Z.log2 (Qnum a) - Z.log2 (Z.pos (Qden a)))%Z).
  destruct (Qle_bool (2 ^ k) a) eqn:E; [now apply Qle_bool_iff|].
  destruct a as [n d]. cbn [Qnum Qden] in k.
  assert (0 < n)%Z as Hn by (unfold Qlt in Ha; cbn in Ha; lia).
  destruct (Z.log2_spec n Hn) as [Hn1 _].
  destruct (Z.log2_spec (Z.pos d) (Pos2Z.is_pos d)) as [_ Hd2].
  pose proof (Z.log2_nonneg n) as Hln.
  pose proof (Z.log2_nonneg (Z.pos d)) as Hld.
  rewrite Zle_Qle, two_power_Z in Hn1 by exact Hln.
  rewrite Zlt_Qlt, two_power_Z in Hd2 by lia.
  replace (k - 1)%Z with (Z.log2 n - Z.succ (Z.log2 (Z.pos d)))%Z by (unfold k; lia).
  rewrite Qpower_minus by (intro H; discriminate H).
  set (P := (2 ^ Z.log2 n)%Q) in *.
  set (R := (2 ^ Z.succ (Z.log2 (Z.pos d)))%Q) in *.
  assert (0 < R)%Q as HR by apply two_power_pos.
  assert (0 < P)%Q as HP by apply two_power_pos.
  rewrite (Qmake_Qdiv n d).
  set (N := inject_Z n) in *. set (D := inject_Z (Z.pos d)) in *.
  assert (0 < D)%Q as HD by reflexivity.
  assert (0 < N)%Q as HN by (unfold N, Qlt; cbn; lia).
  apply Qle_shift_div_r; [exact HR|].
  apply Qle_trans with N; [exact Hn1|].
  assert (N == N / D * D)%Q as EN by (field; intro H; rewrite H in HD; discriminate).
  rewrite EN at 1.
  assert (0 < N / D)%Q as HND by (apply Qlt_shift_div_l; [exact HD | lra]).
  apply Qmult_le_l; [exact HND | now apply Qlt_le_weak].
Qed.

Lemma ulp_exponent_nonpos (a : Q) :
  (0 < a)%Q -> (a < 2 ^ 53)%Q -> (ulp_exponent a <= 0)%Z.
Proof.
  intros Ha Hlt. unfold ulp_exponent.
  destruct (Z.le_gt_cases (ilog2 a) 52) as [H|H]; [lia|exfalso].
  pose proof (ilog2_le a Ha) as Hle.
  assert (2 ^ 53 <= 2 ^ ilog2 a)%Q as Hp
      by (apply Qpower_le_compat_l; [lia | discriminate]).
  lra.
Qed.

Lemma round_half_even_le (y : Q) (J : Z) :
  (y <= inject_Z J)%Q -> (round_half_even y <= J)%Z.
Proof.
  intros Hy. unfold round_half_even, Qlt_bool.
  pose proof (Qfloor_le y) as Hf.
  assert (Qfloor y <= J)%Z as HfJ by (rewrite Zle_Qle; lra).
  destruct (Qle_bool (1 # 2) (y - inject_Z (Qfloor y))) eqn:E; cbn [negb];
    [|exact HfJ].
  apply Qle_bool_iff in E.
  assert (Qfloor y < J)%Z as Hlt by (rewrite Zlt_Qlt; lra).
  destruct (negb (Qle_bool (y - inject_Z (Qfloor y)) (1 # 2)));
    [|destruct (Z.even (Qfloor y))]; lia.
Qed.

Lemma round_half_even_ge (y : Q) (J : Z) :
  (inject_Z J <= y)%Q -> (J <= round_half_even y)%Z.
Proof.
  intros Hy. unfold round_half_even.
  assert (J <= Qfloor y)%Z as HfJ
      by (rewrite <- (Qfloor_Z J); now apply Qfloor_resp_le).
  destruct (Qlt_bool _ _); [exact HfJ|].
  destruct (Qlt_bool _ _); [lia|].
  destruct (Z.even _); lia.
Qed.

(** Rounding a magnitude below 2^53 never crosses an integer. *)
Lemma magnitude_bounds (a : Q) (J : Z) :
  (0 < a)%Q -> (a < 2 ^ 53)%Q ->
  let q := ulp_exponent a in
  let v := (inject_Z (round_half_even (a / 2 ^ q)) * 2 ^ q)%Q in
  ((a <= inject_Z J)%Q -> (v <= inject_Z J)%Q)
  /\ ((inject_Z J <= a)%Q -> (inject_Z J <= v)%Q).
Proof.
  intros Ha Hlt q v.
  pose proof (ulp_exponent_nonpos a Ha Hlt) as Hq. fold q in Hq.
  pose proof (two_power_pos q) as Hs.
  assert (inject_Z (J * 2 ^ (- q)) * 2 ^ q == inject_Z J)%Q as EJ.
  { rewrite inject_Z_mult, two_power_Z by lia.
    rewrite Qpower_opp. field. intro H. rewrite H in Hs. discriminate. }
  assert (inject_Z (J * 2 ^ (- q)) == inject_Z J / 2 ^ q)%Q as EJ'.
  { rewrite <- EJ. field. intro H. rewrite H in Hs. discriminate. }
  subst v. split; intros H.
  - rewrite <- EJ. apply Qmult_le_r; [exact Hs|].
    rewrite <- Zle_Qle. apply round_half_even_le.
    rewrite EJ'. apply Qmult_le_r; [now apply Qinv_lt_0_compat | exact H].
  - rewrite <- EJ. apply Qmult_le_r; [exact Hs|].
    rewrite <- Zle_Qle. apply round_half_even_ge.
    rewrite EJ'. apply Qmult_le_r; [now apply Qinv_lt_0_compat | exact H].
Qed.

Lemma Qabs_nonneg_eq (x : Q) : (0 <= x)%Q -> Qabs x = x.
Proof.
  destruct x as [n d]. unfold Qle, Qabs. cbn. intros H.
  f_equal. lia.
Qed.

(** Integers of magnitude below 2^53 are doubles: rounding a number of
    that magnitude keeps it on its side of every integer. *)
Lemma binary64_integer_bounds (x : Q) (J : Z) :
  (Qabs x < 2 ^ 53)%Q ->
  ((x <= inject_Z J)%Q -> (binary64 x <= inject_Z J)%Q)
  /\ ((inject_Z J <= x)%Q -> (inject_Z J <= binary64 x)%Q).
Proof.
  intros Hlt. unfold binary64.
  destruct (Qeq_bool x 0) eqn:E0.
  { apply Qeq_bool_iff in E0. split; intros H; lra. }
  apply Qeq_bool_neq in E0.
  destruct (Qle_bool 0 x) eqn:Es.
  - apply Qle_bool_iff in Es.
    rewrite (Qabs_nonneg_eq x Es) in *.
    assert (0 < x)%Q as Hx by (apply Qle_lteq in Es; destruct Es as [H|H];
                               [exact H | exfalso; apply E0; now symmetry]).
    rewrite Qred_correct. exact (magnitude_bounds x J Hx Hlt).
  - assert (x < 0)%Q as Hx.
    { apply Qnot_le_lt. intros H. apply Qle_bool_iff in H. congruence. }
    pose proof (Qabs_neg x (Qlt_le_weak _ _ Hx)) as Ea.
    assert (0 < Qabs x)%Q as Ha by lra.
    destruct (magnitude_bounds (Qabs x) (- J) Ha Hlt) as [Hup Hlo].
    rewrite inject_Z_opp in Hup, Hlo. rewrite Qred_correct.
    split; intros H.
    + assert (- inject_Z J <= Qabs x)%Q as H' by lra.
      specialize (Hlo H'). lra.
    + assert (Qabs x <= - inject_Z J)%Q as H' by lra.
      specialize (Hup H'). lra.
Qed.

(** The product of the double nearest 0.1 and 100 is not a double; rounded,
    and 20 added, it is 30. *)
Lemma binary64_tenth :
  binary64 (binary64 ((3602879701896397 # 36028797018963968) * 100) + 20) = 30%Q.
Proof. vm_compute. reflexivity. Qed.

End Doubles.

(** ** The exposure transform *)

Module Transform.
Import Dashboard.

Lemma by_strike_key (a b : ExposureRecord) :
  (by_strike a b == strike_price a - strike_price b)%Q.
Proof. reflexivity. Qed.

Lemma step_of_pos (arr : list ExposureRecord) : 0 < step_of arr.
Proof. unfold step_of. lia. Qed.

Lemma step_of_sortedData (records : list ExposureRecord) :
  step_of (sortedData records) = Nat.max 1 (List.length records / 20).
Proof. unfold step_of, sortedData. now rewrite sort_length. Qed.

Lemma sortedData_perm (records : list ExposureRecord) :
  Permutation (sortedData records) records.
Proof. apply sort_perm. Qed.

Lemma sortedData_sorted (records : list ExposureRecord) :
  StronglySorted (key_le strike_price) (sortedData records).
Proof. apply sort_sorted, by_strike_key. Qed.

(** Records of one strike stay in the order the payload had them. *)
Lemma sortedData_stable (k : Q) (records : list ExposureRecord) :
  filter (fun a => Qeq_bool (strike_price a) k) (sortedData records)
  = filter (fun a => Qeq_bool (strike_price a) k) records.
Proof. apply sort_stable, by_strike_key. Qed.

Lemma filteredData_nth (records : list ExposureRecord) (k : nat) :
  nth_error (filteredData records) k
  = nth_error (sortedData records) (k * step_of (sortedData records)).
Proof.
  unfold filteredData, filter_indexed.
  apply filter_indexed_nth; [apply step_of_pos | reflexivity].
Qed.

Lemma filteredData_length_le (records : list ExposureRecord) (k : nat) :
  List.length (filteredData records) <= k
  <-> List.length records <= k * step_of (sortedData records).
Proof.
  unfold filteredData, filter_indexed.
  rewrite (filter_indexed_length_le keep_nth (sortedData records)
             (step_of (sortedData records)) (step_of_pos _)) by reflexivity.
  unfold sortedData at 1. now rewrite sort_length.
Qed.

Lemma filteredData_sorted (records : list ExposureRecord) :
  StronglySorted (key_le strike_price) (filteredData records).
Proof. apply filter_from_sorted, sortedData_sorted. Qed.

Lemma filteredData_In (records : list ExposureRecord) (r : ExposureRecord) :
  In r (filteredData records) -> In r records.
Proof.
  intros H. apply filter_from_In in H.
  eapply Permutation_in; [apply sortedData_perm | exact H].
Qed.

Lemma map_sorted (l : list ExposureRecord) :
  StronglySorted (key_le strike_price) l ->
  StronglySorted Qle (map strike_price l).
Proof.
  induction 1 as [|x l Hs IH Hall]; simpl; constructor; [exact IH|].
  apply Forall_map. exact Hall.
Qed.

Lemma strikes_sorted (records : list ExposureRecord) :
  StronglySorted Qle (strikes records).
Proof. apply map_sorted, filteredData_sorted. Qed.

(** What the plot of a non-empty payload carries in its three traces. *)
Lemma plot_channels (dark : bool) (r : Random) (records : list ExposureRecord)
      (expiry : string) :
  records <> [] ->
  let p := fst (createGammaExposurePlot dark r (Some records) expiry) in
  plot_data p = real_traces records
  /\ trace_nums p 0 "y" = Some (strikes records)
  /\ trace_nums p 1 "y" = Some (strikes records)
  /\ trace_nums p 2 "y" = Some (strikes records)
  /\ trace_nums p 0 "x" = Some (callValues records)
  /\ trace_nums p 1 "x" = Some (putValues records)
  /\ trace_nums p 2 "x" = Some (netValues records).
Proof.
  intros Hne. destruct records as [|r0 rest]; [congruence|].
  unfold createGammaExposurePlot, trace_nums, real_traces.
  cbn [fst plot_data nth_error get assoc String.eqb Ascii.eqb Bool.eqb].
  rewrite !as_nums_nums. repeat split.
Qed.

Lemma or_zero_canonical (x : option Q) :
  or_zero x = 0%Q \/ Qeq_bool (or_zero x) 0 = false.
Proof.
  destruct x as [q|]; simpl; [|now left].
  destruct (Qeq_bool q 0) eqn:E; [now left | now right].
Qed.

(** [x || 0] keeps the value of a number. *)
Lemma or_zero_value (q : Q) : (or_zero (Some q) == q)%Q.
Proof.
  cbn. destruct (Qeq_bool q 0) eqn:E; [|reflexivity].
  apply Qeq_bool_iff in E. now symmetry.
Qed.

(** The put value is minus the magnitude of the exposure, a [null] one
    counting as zero. *)
Lemma put_value_is_minus_abs (item : ExposureRecord) :
  (put_value item
   == - Qabs (match put_gamma_exposure item with Some x => x | None => 0 end))%Q.
Proof.
  unfold put_value. destruct (put_gamma_exposure item) as [x|].
  - now rewrite or_zero_value.
  - reflexivity.
Qed.

Lemma put_value_nonpositive (item : ExposureRecord) : (put_value item <= 0)%Q.
Proof.
  unfold put_value.
  pose proof (Qabs_nonneg (or_zero (put_gamma_exposure item))). lra.
Qed.

Lemma put_value_idempotent (item : ExposureRecord) :
  put_value (Samples.feed_back_put item) = put_value item.
Proof.
  unfold Samples.feed_back_put, put_value. cbn [put_gamma_exposure].
  destruct (or_zero_canonical (put_gamma_exposure item)) as [E|E].
  - rewrite E. reflexivity.
  - destruct (or_zero (put_gamma_exposure item)) as [n d] eqn:Eq.
    unfold or_zero at 1.
    assert (Qeq_bool (- Qabs (n # d)) 0 = false) as E'.
    { unfold Qeq_bool in *. simpl in *.
      apply Z.eqb_neq. apply Z.eqb_neq in E. lia. }
    rewrite E'. unfold Qabs, Qopp. cbn [Qnum Qden].
    f_equal. lia.
Qed.

(** Sorting and decimation commute with a change of the records that leaves
    the strikes alone. *)
Lemma sort_insert_map {A : Type} (cmp : A -> A -> Q) (g : A -> A) :
  (forall x y, cmp (g x) (g y) = cmp x y) ->
  forall x l, sort_insert cmp (g x) (map g l) = map g (sort_insert cmp x l).
Proof.
  intros Hg x l. induction l as [|y l IH]; [reflexivity|].
  cbn [map sort_insert]. rewrite Hg.
  destruct (Qle_bool (cmp x y) 0); cbn [map]; [reflexivity|].
  now rewrite IH.
Qed.

Lemma sort_map {A : Type} (cmp : A -> A -> Q) (g : A -> A) :
  (forall x y, cmp (g x) (g y) = cmp x y) ->
  forall l, sort cmp (map g l) = map g (sort cmp l).
Proof.
  intros Hg l. induction l as [|x l IH]; [reflexivity|].
  cbn [map sort fold_right]. fold (sort cmp (map g l)). fold (sort cmp l).
  rewrite IH. now apply sort_insert_map.
Qed.

Lemma filter_from_map (g : ExposureRecord -> ExposureRecord)
      (arr l : list ExposureRecord) (i : nat) :
  filter_from keep_nth (map g arr) i (map g l)
  = map g (filter_from keep_nth arr i l).
Proof.
  revert i. induction l as [|x l IH]; intros i; [reflexivity|].
  cbn [map filter_from].
  assert (keep_nth (g x) i (map g arr) = keep_nth x i arr) as E
      by (unfold keep_nth, step_of; now rewrite length_map).
  rewrite E, IH. now destruct (keep_nth x i arr).
Qed.

Lemma filteredData_feed_back (records : list ExposureRecord) :
  filteredData (map Samples.feed_back_put records)
  = map Samples.feed_back_put (filteredData records).
Proof.
  unfold filteredData, filter_indexed, sortedData.
  rewrite (sort_map by_strike Samples.feed_back_put) by reflexivity.
  apply filter_from_map.
Qed.

End Transform.

Module TransformClaims.
Import Dashboard Transform Samples.

(** C3.  On the two records of the worked example, whatever the expiry label,
    the theme and the random source, the plot carries strikes [90, 100],
    calls [1, 5], puts [-9, -3] and net [-8, 2]: the records are sorted by
    strike, the step is 1 so both are kept, and the puts are negated. *)
Theorem example_series (dark : bool) (r : Random) (expiry : string) :
  let p := fst (createGammaExposurePlot dark r (Some two_records) expiry) in
  step_of (sortedData two_records) = 1
  /\ map strike_price (sortedData two_records) = [90; 100]%Q
  /\ trace_nums p 0 "y" = Some [90; 100]%Q
  /\ trace_nums p 1 "y" = Some [90; 100]%Q
  /\ trace_nums p 2 "y" = Some [90; 100]%Q
  /\ trace_nums p 0 "x" = Some [1; 5]%Q
  /\ trace_nums p 1 "x" = Some [-9; -3]%Q
  /\ trace_nums p 2 "x" = Some [-8; 2]%Q.
Proof. repeat split. Qed.

(** C4.  For more than twenty records, with [step = max(1, floor(N / 20))],
    the plot has at most [floor(N / step) + 1] strikes, the record at
    position [k] of the output is the record at position [k * step] of the
    sorted payload (so the retained records are exactly those at the indices
    divisible by [step]), and the strikes of the output never decrease. *)
Theorem downsampled_series (dark : bool) (r : Random)
        (records : list ExposureRecord) (expiry : string) :
  20 < List.length records ->
  let N := List.length records in
  let step := Nat.max 1 (N / 20) in
  let p := fst (createGammaExposurePlot dark r (Some records) expiry) in
  exists ys,
    trace_nums p 0 "y" = Some ys
    /\ ys = map strike_price (filteredData records)
    /\ List.length ys <= N / step + 1
    /\ (forall k, nth_error (filteredData records) k
                  = nth_error (sortedData records) (k * step))
    /\ (forall k, nth_error ys k
                  = option_map strike_price
                      (nth_error (sortedData records) (k * step)))
    /\ Permutation (sortedData records) records
    /\ StronglySorted (key_le strike_price) (sortedData records)
    /\ StronglySorted Qle ys.
Proof.
  intros HN N step p.
  assert (records <> []) as Hne by (intro E; subst records; simpl in HN; lia).
  destruct (plot_channels dark r records expiry Hne) as (_ & Hy & _).
  assert (step_of (sortedData records) = step) as Hstep
      by apply step_of_sortedData.
  assert (0 < step) as Hpos by (unfold step; lia).
  exists (strikes records). repeat split.
  - exact Hy.
  - unfold strikes. rewrite length_map.
    apply filteredData_length_le. rewrite Hstep. fold N.
    pose proof (Nat.div_mod_eq N step) as Hdm.
    pose proof (Nat.mod_upper_bound N step) as Hub. nia.
  - intros k. now rewrite filteredData_nth, Hstep.
  - intros k. unfold strikes.
    now rewrite nth_error_map, filteredData_nth, Hstep.
  - apply sortedData_perm.
  - apply sortedData_sorted.
  - apply strikes_sorted.
Qed.

Lemma downsampled_series_witness :
  20 < List.length many_records
  /\ exists ys,
      trace_nums (fst (createGammaExposurePlot true half (Some many_records) "all"))
                 0 "y" = Some ys
      /\ List.length ys <= 45 / 2 + 1.
Proof.
  split; [vm_compute; lia|].
  destruct (downsampled_series true half many_records "all")
    as (ys & Hy & _ & Hlen & _); [vm_compute; lia|].
  exists ys. split; [exact Hy | exact Hlen].
Defined.

(** C5.  The put value emitted for a record is [-abs(x ?? 0)] of its put
    exposure [x]: minus the exposure when it is positive, the exposure
    itself when it is negative, zero for [null].  Whatever the sign of
    [x] it is therefore at most zero, and forcing the sign is idempotent:
    a record fed back with the emitted value as its put exposure yields the
    same value, and so does a whole payload fed back into the transform. *)
Theorem put_channel_sign_forced :
  (forall item,
      (put_value item
       == - Qabs (match put_gamma_exposure item with
                  | Some x => x
                  | None => 0
                  end))%Q)
  /\ (forall item x, put_gamma_exposure item = Some x ->
                     ((0 <= x -> put_value item == - x)
                      /\ (x <= 0 -> put_value item == x))%Q)
  /\ (forall records k,
         nth_error (putValues records) k
         = option_map put_value (nth_error (filteredData records) k))
  /\ (forall item, (put_value item <= 0)%Q)
  /\ (forall records, Forall (fun v => (v <= 0)%Q) (putValues records))
  /\ (forall dark r first rest expiry,
         trace_nums
           (fst (createGammaExposurePlot dark r (Some (first :: rest)) expiry))
           1 "x" = Some (putValues (first :: rest)))
  /\ (forall item, put_value (feed_back_put item) = put_value item)
  /\ (forall records,
         putValues (map feed_back_put records) = putValues records).
Proof.
  split; [exact put_value_is_minus_abs|].
  split.
  { intros item x Hx. pose proof (put_value_is_minus_abs item) as H.
    rewrite Hx in H. split; intros Hs; rewrite H.
    - now rewrite Qabs_pos.
    - rewrite Qabs_neg by exact Hs. apply Qopp_involutive. }
  split.
  { intros records k. unfold putValues. apply nth_error_map. }
  split; [exact put_value_nonpositive|].
  split.
  { intros records. unfold putValues. apply Forall_map, Forall_forall.
    intros item _. apply put_value_nonpositive. }
  split.
  { intros dark r first rest expiry.
    apply (plot_channels dark r (first :: rest) expiry). discriminate. }
  split; [exact put_value_idempotent|].
  intros records. unfold putValues.
  rewrite filteredData_feed_back, map_map.
  apply map_ext. exact put_value_idempotent.
Qed.

Lemma put_channel_sign_forced_witness :
  put_gamma_exposure (record 100 5 3 2) = Some 3%Q
  /\ (0 <= 3)%Q
  /\ (put_value (record 100 5 3 2) == - 3)%Q
  /\ put_gamma_exposure (record 90 1 (-9) (-8)) = Some (-9)%Q
  /\ (-9 <= 0)%Q
  /\ (put_value (record 90 1 (-9) (-8)) == -9)%Q.
Proof.
  destruct put_channel_sign_forced as (_ & H & _).
  assert (0 <= 3)%Q as Hpos by (vm_compute; discriminate).
  assert (-9 <= 0)%Q as Hneg by (vm_compute; discriminate).
  split; [reflexivity|]. split; [exact Hpos|].
  split; [exact (proj1 (H (record 100 5 3 2) 3%Q eq_refl) Hpos)|].
  split; [reflexivity|]. split; [exact Hneg|].
  exact (proj2 (H (record 90 1 (-9) (-8)) (-9)%Q eq_refl) Hneg).
Defined.

(** C6, as stated, fails: on an empty payload nothing handed to Plotly (no
    trace, neither the layout nor the config) carries an [isSample] key, set
    to [true] or otherwise. *)
Lemma empty_payload_not_flagged :
  let p := fst (createGammaExposurePlot true half (Some []) "all") in
  ~ (exists v, In v (plot_layout p :: plot_config p :: plot_data p)
               /\ get "isSample" v = Some (JBool true)).
Proof.
  intros p [v [Hin Hget]].
  simpl in Hin.
  repeat (destruct Hin as [Hin|Hin]; [subst v; discriminate Hget|]).
  exact Hin.
Qed.

(** C6, amended.  An empty payload ([null] or [[]]) always yields the
    placeholder: two traces named "Calls (Sample)" and "Puts (Sample)" over
    the five fixed strikes.  A non-empty payload always yields the three
    traces "Calls (Long)", "Puts (Short)" and "Net Gamma".  The trace names
    are what tells the two apart; no object of either plot has an
    [isSample] key. *)
Theorem placeholder_told_by_trace_names (dark : bool) (r : Random)
        (payload : option (list ExposureRecord)) (expiry : string) :
  let p := fst (createGammaExposurePlot dark r payload expiry) in
  match payload with
  | Some (_ :: _) =>
      map (get "name") (plot_data p)
      = [ Some (JStr "Calls (Long)"); Some (JStr "Puts (Short)");
          Some (JStr "Net Gamma") ]
  | _ =>
      map (get "name") (plot_data p)
      = [ Some (JStr "Calls (Sample)"); Some (JStr "Puts (Sample)") ]
      /\ trace_nums p 0 "y" = Some sample_strikes
      /\ trace_nums p 1 "y" = Some sample_strikes
  end
  /\ Forall (fun v => get "isSample" v = None)
            (plot_layout p :: plot_config p :: plot_data p).
Proof.
  destruct payload as [[|first rest]|]; cbn; repeat split;
    repeat constructor.
Qed.

(** C9.  For a non-empty payload and a fixed expiry label the transform is a
    function of its input alone: it draws no random number, two runs with
    different random sources give the same plot, and the theme changes the
    colours of the layout only, never the traces (strikes, calls, puts,
    net). *)
Theorem series_deterministic (records : list ExposureRecord) (expiry : string)
        (dark1 dark2 : bool) (r1 r2 : Random) :
  records <> [] ->
  let run1 := createGammaExposurePlot dark1 r1 (Some records) expiry in
  let run2 := createGammaExposurePlot dark2 r2 (Some records) expiry in
  snd run1 = r1
  /\ fst (createGammaExposurePlot dark1 r2 (Some records) expiry) = fst run1
  /\ plot_data (fst run1) = plot_data (fst run2)
  /\ plot_config (fst run1) = plot_config (fst run2)
  /\ get "title" (plot_layout (fst run1)) = get "title" (plot_layout (fst run2))
  /\ (forall i k, trace_nums (fst run1) i k = trace_nums (fst run2) i k).
Proof.
  intros Hne. destruct records as [|first rest]; [congruence|].
  cbn. repeat split.
Qed.

Lemma series_deterministic_witness :
  two_records <> []
  /\ plot_data (fst (createGammaExposurePlot true half (Some two_records) "all"))
     = plot_data (fst (createGammaExposurePlot false quarter (Some two_records) "all")).
Proof.
  split; [discriminate|].
  apply (series_deterministic two_records "all" true false half quarter).
  discriminate.
Defined.

(** The placeholder, by contrast, follows the random source. *)
Lemma placeholder_follows_random_source :
  plot_data (fst (createGammaExposurePlot true half None "all"))
  <> plot_data (fst (createGammaExposurePlot true quarter None "all")).
Proof. intro H. vm_compute in H. discriminate H. Qed.

(** C10.  For a non-empty payload the four sequences of the plot (strikes,
    calls, puts, net) have the same length, and the first strike of the plot
    is the lowest strike of the payload: index 0 passes the filter whatever
    the step, so the first record of the sorted payload is always kept. *)
Theorem lowest_strike_kept (dark : bool) (r : Random)
        (records : list ExposureRecord) (expiry : string) :
  records <> [] ->
  let p := fst (createGammaExposurePlot dark r (Some records) expiry) in
  exists ys cs ps ns lowest,
    trace_nums p 0 "y" = Some ys
    /\ trace_nums p 0 "x" = Some cs
    /\ trace_nums p 1 "x" = Some ps
    /\ trace_nums p 2 "x" = Some ns
    /\ List.length cs = List.length ys
    /\ List.length ps = List.length ys
    /\ List.length ns = List.length ys
    /\ (forall item, keep_nth item 0 (sortedData records) = true)
    /\ nth_error (sortedData records) 0 = Some lowest
    /\ nth_error (filteredData records) 0 = Some lowest
    /\ hd_error ys = Some (strike_price lowest)
    /\ In lowest records
    /\ (forall item, In item records ->
                     (strike_price lowest <= strike_price item)%Q).
Proof.
  intros Hne p.
  destruct (plot_channels dark r records expiry Hne)
    as (_ & Hy & _ & _ & Hc & Hp & Hn).
  pose proof (sortedData_perm records) as Hperm.
  pose proof (sortedData_sorted records) as Hsorted.
  pose proof (filteredData_nth records 0) as Hzero.
  destruct (sortedData records) as [|lowest tl] eqn:Es.
  { apply Permutation_nil in Hperm. contradiction. }
  cbn [Nat.mul nth_error] in Hzero.
  exists (strikes records), (callValues records), (putValues records),
         (netValues records), lowest.
  split; [exact Hy|]. split; [exact Hc|]. split; [exact Hp|].
  split; [exact Hn|].
  split; [unfold callValues, strikes; now rewrite !length_map|].
  split; [unfold putValues, strikes; now rewrite !length_map|].
  split; [unfold netValues, strikes; now rewrite !length_map|].
  split; [intros item; unfold keep_nth; now rewrite Nat.Div0.mod_0_l|].
  split; [reflexivity|].
  split; [exact Hzero|].
  split.
  { unfold strikes. destruct (filteredData records); [discriminate|].
    cbn in *. congruence. }
  split; [eapply Permutation_in; [exact Hperm | now left]|].
  intros item Hin.
  apply (Permutation_in _ (Permutation_sym Hperm)) in Hin.
  destruct Hin as [->|Hin]; [apply Qle_refl|].
  apply StronglySorted_inv in Hsorted. destruct Hsorted as [_ Hall].
  rewrite Forall_forall in Hall. now apply Hall.
Qed.

Lemma lowest_strike_kept_witness :
  many_records <> []
  /\ exists ys lowest,
      trace_nums (fst (createGammaExposurePlot false quarter
                                               (Some many_records) "weekly"))
                 0 "y" = Some ys
      /\ hd_error ys = Some (strike_price lowest)
      /\ In lowest many_records
      /\ (forall item, In item many_records ->
                       (strike_price lowest <= strike_price item)%Q).
Proof.
  split; [discriminate|].
  destruct (lowest_strike_kept false quarter many_records "weekly")
    as (ys & _ & _ & _ & lowest & Hy & _ & _ & _ & _ & _ & _ & _ & _ & _
        & Hhd & Hin & Hmin); [discriminate|].
  exists ys, lowest. repeat split; assumption.
Defined.

End TransformClaims.

(** ** The refresh pipeline *)

Module Pipeline.
Import Dashboard.

Section TakeFacts.
Context {K : Type}.

Lemma take_fresh (id : nat) (k : K) (ps tail : list (nat * K)) :
  Forall (fun ik => fst ik <> id) ps ->
  take id (ps ++ (id, k) :: tail) = Some (k, ps ++ tail).
Proof.
  induction 1 as [|[i k'] ps Hi _ IH]; cbn [app take].
  - now rewrite Nat.eqb_refl.
  - cbn [fst] in Hi. apply Nat.eqb_neq in Hi. now rewrite Hi, IH.
Qed.

Lemma take_Forall (P : nat * K -> Prop) (id : nat) (ps : list (nat * K)) :
  Forall P ps ->
  match take id ps with
  | Some (_, rest) => Forall P rest
  | None => True
  end.
Proof.
  induction 1 as [|[i k] ps Hi Hps IH]; cbn [take]; [exact I|].
  destruct (i =? id); [exact Hps|].
  destruct (take id ps) as [[k' rest]|]; [|exact I].
  now constructor.
Qed.
Lemma take_length (id : nat) (ps : list (nat * K)) :
  match take id ps with
  | Some (_, rest) => S (List.length rest) = List.length ps
  | None => True
  end.
Proof.
  induction ps as [|[i k] ps IH]; cbn [take]; [exact I|].
  destruct (i =? id); [reflexivity|].
  destruct (take id ps) as [[k' rest]|]; [|exact I].
  cbn. now rewrite IH.
Qed.
Lemma take_In (id : nat) (k : K) (ps rest : list (nat * K)) :
  take id ps = Some (k, rest) -> In (id, k) ps.
Proof.
  revert rest. induction ps as [|[i k0] ps IH]; intros rest; cbn [take].
  - discriminate.
  - destruct (i =? id) eqn:E.
    + intros H. injection H as <- _. apply Nat.eqb_eq in E. subst i. now left.
    + destruct (take id ps) as [[k' rest']|]; [|discriminate].
      intros H. injection H as <- _. right. eapply IH. reflexivity.
Qed.
End TakeFacts.

Lemma well_numbered_below (p : Page) (n : nat) :
  well_numbered p -> List.length (requests p) <= n ->
  Forall (fun ik => fst ik <> n) (pending p).
Proof.
  unfold well_numbered. intros H Hn.
  eapply Forall_impl; [|exact H]. cbn. intros ik Hik. lia.
Qed.

Lemma fetch_well_numbered (url : string) (k : Pending) (p : Page) :
  well_numbered p -> well_numbered (fetch url k p).
Proof.
  unfold well_numbered, fetch. cbn. intros H.
  rewrite length_app. cbn. apply Forall_app. split.
  - eapply Forall_impl; [|exact H]. cbn. intros; lia.
  - repeat constructor. cbn. lia.
Qed.

Lemma initGammaExposureChart_well_numbered (p : Page) :
  well_numbered p -> well_numbered (initGammaExposureChart p).
Proof.
  intros H. unfold initGammaExposureChart.
  destruct (gamma_exposure_chart p); [|exact H].
  apply fetch_well_numbered. exact H.
Qed.

Lemma toggleTheme_well_numbered (p : Page) :
  well_numbered p -> well_numbered (toggleTheme p).
Proof.
  intros H. unfold toggleTheme.
  apply initGammaExposureChart_well_numbered.
  unfold initTradingViewWidget, updateThemeToggleIcon.
  destruct (body_class p); cbn; destruct (tradingview_container p); exact H.
Qed.

(** Every listener and every continuation keeps the numbering. *)
Lemma step_well_numbered (localTime : string -> option string)
      (p : Page) (e : Event) :
  well_numbered p -> well_numbered (step localTime p e).
Proof.
  intros H. destruct e as [| |value| |id r|id r]; cbn [step].
  - apply initGammaExposureChart_well_numbered, fetch_well_numbered, H.
  - apply toggleTheme_well_numbered, H.
  - destruct (expiry_select p); [|exact H].
    apply initGammaExposureChart_well_numbered. exact H.
  - destruct (expiry_select p); [|exact H].
    apply initGammaExposureChart_well_numbered, H.
  - unfold marketSettled.
    pose proof (take_Forall _ id _ H) as Ht.
    destruct (take id (pending p)) as [[[|e] rest]|]; try exact H.
    destruct r as [| | |data]; try exact Ht.
    destruct (updateMarketDisplay localTime data _) as [card []]; exact Ht.
  - unfold exposureSettled.
    pose proof (take_Forall _ id _ H) as Ht.
    destruct (take id (pending p)) as [[[|e] rest]|]; try exact H.
    destruct r as [| | |data]; try exact Ht.
    destruct (createGammaExposurePlot _ _ data e) as [plot r'] eqn:E.
    exact Ht.
Qed.

Lemma run_well_numbered (localTime : string -> option string)
      (es : list Event) (p : Page) :
  well_numbered p -> well_numbered (run localTime es p).
Proof.
  revert p. induction es as [|e es IH]; intros p H; [exact H|].
  apply IH, step_well_numbered, H.
Qed.

Lemma loaded_well_numbered (stored : option Theme) (r : Random) :
  well_numbered (DOMContentLoaded (index_html stored r)).
Proof. unfold well_numbered. cbn. repeat constructor. Qed.

(** What one invocation of [refreshData] adds to the network state. *)
Lemma refreshData_network (p : Page) (c : Card) :
  gamma_exposure_chart p = Some c ->
  requests (refreshData p)
  = requests p ++ [market_url; exposure_url (selected_expiry p)]
  /\ pending (refreshData p)
     = pending p ++ [(List.length (requests p), AwaitMarket);
                     (List.length (requests p) + 1,
                      AwaitExposure (selected_expiry p))].
Proof.
  intros Hc.
  unfold refreshData, initGammaExposureChart, loadMarketData, fetch.
  cbn. rewrite Hc. cbn. rewrite length_app, <- !app_assoc. repeat split.
Qed.

Lemma updateMarketDisplay_spot (localTime : string -> option string)
      (m : MarketSnapshot) (card : MarketCard) (old : option Fixed2) :
  spot_value card = Some old ->
  spot_value (fst (updateMarketDisplay localTime m card))
  = Some (Some (toFixed2 (spot_price m))).
Proof.
  intros H. unfold updateMarketDisplay. rewrite H.
  destruct (spot_timestamp card); [|reflexivity].
  destruct (localTime (timestamp m)); reflexivity.
Qed.

(** The state a cycle leaves behind when its exposure fetch fails and its
    market fetch brings a snapshot, in either order of settlement. *)
Lemma cycle_with_failed_exposure (localTime : string -> option string)
      (p : Page) (c : Card)
      (m : MarketSnapshot) (r : FetchResult (option (list ExposureRecord))) :
  gamma_exposure_chart p = Some c ->
  well_numbered p ->
  failed r = true ->
  let n := List.length (requests p) in
  let started := refreshData p in
  forall q,
    q = exposureSettled (n + 1) r
          (marketSettled localTime n (Json m) started)
    \/ q = marketSettled localTime n (Json m)
             (exposureSettled (n + 1) r started) ->
    market_card q = fst (updateMarketDisplay localTime m (market_card p))
    /\ gamma_exposure_chart q = Some CardError
    /\ pending q = pending p
    /\ requests q = requests started
    /\ In exposure_error (console_errors q)
    /\ (snd (updateMarketDisplay localTime m (market_card p)) = false ->
        console_errors q = console_errors p ++ [exposure_error]).
Proof.
  intros Hc Hw Hr n started q Hq.
  assert (pending started
          = pending p ++ [(n, AwaitMarket);
                          (n + 1, AwaitExposure (selected_expiry p))]) as Hpend
      by apply (refreshData_network p c Hc).
  assert (market_card started = market_card p
          /\ console_errors started = console_errors p
          /\ random started = random p) as (Hm & Hce & Hrand).
  { subst started. unfold refreshData, initGammaExposureChart, loadMarketData, fetch.
    cbn. rewrite Hc. cbn. repeat split. }
  pose proof (well_numbered_below p n Hw (Nat.le_refl _)) as Hn.
  pose proof (well_numbered_below p (n + 1) Hw) as Hn1.
  specialize (Hn1 ltac:(lia)).
  assert (take n (pending started)
          = Some (AwaitMarket,
                  pending p ++ [(n + 1, AwaitExposure (selected_expiry p))]))
    as Ht1 by (rewrite Hpend; now apply take_fresh).
  assert (take (n + 1) (pending started)
          = Some (AwaitExposure (selected_expiry p),
                  pending p ++ [(n, AwaitMarket)])) as Ht2.
  { rewrite Hpend.
    replace (pending p ++ [(n, AwaitMarket);
                           (n + 1, AwaitExposure (selected_expiry p))])
      with ((pending p ++ [(n, AwaitMarket)])
              ++ (n + 1, AwaitExposure (selected_expiry p)) :: [])
      by now rewrite <- app_assoc.
    rewrite take_fresh; [now rewrite app_nil_r|].
    apply Forall_app. split; [exact Hn1|].
    repeat constructor. cbn. lia. }
  assert (take (n + 1) (pending p ++ [(n + 1, AwaitExposure (selected_expiry p))])
          = Some (AwaitExposure (selected_expiry p), pending p)) as Ht3.
  { rewrite take_fresh by exact Hn1. now rewrite app_nil_r. }
  assert (take n (pending p ++ [(n, AwaitMarket)])
          = Some (AwaitMarket, pending p)) as Ht4.
  { rewrite take_fresh by exact Hn. now rewrite app_nil_r. }
  destruct Hq as [-> | ->].
  - unfold marketSettled. rewrite Ht1. cbn [with_network market_card].
    rewrite Hm.
    destruct (updateMarketDisplay localTime m (market_card p)) as [card threw].
    unfold exposureSettled.
    destruct threw; cbn; rewrite Ht3;
      destruct r as [| | |payload]; try discriminate Hr;
      cbn; rewrite Hce; repeat split;
      try (apply in_or_app; right; now left);
      try (intros; discriminate);
      try (rewrite in_app_iff; left; apply in_or_app; right; now left).
  - unfold exposureSettled. rewrite Ht2.
    destruct r as [| | |payload]; try discriminate Hr;
      unfold marketSettled; cbn; rewrite Ht4; cbn; rewrite Hm;
      destruct (updateMarketDisplay localTime m (market_card p)) as [card threw];
      destruct threw; cbn; rewrite Hce; repeat split;
      try (intros; discriminate);
      try (apply in_or_app; right; now left);
      try (rewrite in_app_iff; left; apply in_or_app; right; now left).
Qed.

End Pipeline.

Module PipelineClaims.
Import Dashboard Pipeline Samples.

(** C1, as stated, fails: with the fetches of one timer cycle still pending,
    a second timer firing is not skipped.  It issues both fetches again, so
    each endpoint has two requests in flight; a filter change in the same
    window issues the exposure fetch again as well. *)
Lemma second_cycle_not_skipped :
  let first := step clock rendered IntervalElapsed in
  let second := step clock first IntervalElapsed in
  let changed := step clock first (ExpirySelectChange "weekly") in
  pending first = [(2, AwaitMarket); (3, AwaitExposure "all")]
  /\ second <> first
  /\ requests second
     = requests first ++ [market_url; exposure_url "all"]
  /\ pending second
     = [(2, AwaitMarket); (3, AwaitExposure "all");
        (4, AwaitMarket); (5, AwaitExposure "all")]
  /\ pending changed
     = [(2, AwaitMarket); (3, AwaitExposure "all"); (4, AwaitExposure "weekly")].
Proof.
  cbv zeta. repeat split.
  intro E. apply (f_equal requests) in E. discriminate E.
Qed.

(** C1, amended.  Every invocation of [refreshData] executes, whether or not
    an earlier cycle is still in flight: on a page with the chart container
    it issues one market fetch and one exposure fetch and leaves both
    pending behind whatever was pending before.  Two invocations in a row
    therefore fetch each endpoint twice, and a filter change after an
    invocation fetches the exposure endpoint once more. *)
Theorem every_cycle_executes (p : Page) (c : Card) :
  gamma_exposure_chart p = Some c ->
  let n := List.length (requests p) in
  let e := selected_expiry p in
  requests (refreshData p) = requests p ++ [market_url; exposure_url e]
  /\ pending (refreshData p)
     = pending p ++ [(n, AwaitMarket); (n + 1, AwaitExposure e)]
  /\ requests (refreshData (refreshData p))
     = requests p ++ [market_url; exposure_url e; market_url; exposure_url e]
  /\ pending (refreshData (refreshData p))
     = pending p ++ [(n, AwaitMarket); (n + 1, AwaitExposure e);
                     (n + 2, AwaitMarket); (n + 3, AwaitExposure e)]
  /\ requests (updateGammaExposureChart (refreshData p))
     = requests p ++ [market_url; exposure_url e; exposure_url e].
Proof.
  intros Hc n e.
  unfold updateGammaExposureChart, refreshData, initGammaExposureChart,
    loadMarketData, fetch.
  cbn. rewrite Hc. cbn. fold (selected_expiry p). fold e. fold n.
  rewrite !length_app. cbn [List.length]. fold n.
  rewrite <- !app_assoc. cbn [app].
  replace (n + 1 + 1) with (n + 2) by lia.
  replace (n + 2 + 1) with (n + 3) by lia.
  repeat split.
Qed.

Lemma every_cycle_executes_witness :
  gamma_exposure_chart loaded = Some CardLoading
  /\ requests (refreshData (refreshData loaded))
     = requests loaded
       ++ [market_url; exposure_url "all"; market_url; exposure_url "all"].
Proof.
  split; [reflexivity|].
  apply (every_cycle_executes loaded CardLoading). reflexivity.
Defined.

(** C2, as stated, fails: on a page whose chart is drawn and where no fetch
    is pending, a click on the theme toggle issues a request and replaces
    the drawn chart by the loading placeholder. *)
Lemma theme_toggle_fetches :
  let after := step clock rendered ThemeToggleClick in
  pending rendered = []
  /\ (exists plot, gamma_exposure_chart rendered = Some (CardPlot plot))
  /\ requests after = requests rendered ++ [exposure_url "all"]
  /\ requests after <> requests rendered
  /\ gamma_exposure_chart after = Some CardLoading.
Proof.
  cbv zeta. repeat split; try discriminate.
  eexists. reflexivity.
Qed.

(** C2, amended.  On a page whose chart is drawn and where no fetch is
    pending, a theme toggle flips the theme and stores it, leaves the market
    card alone, replaces the chart by the loading placeholder and issues
    exactly one request, an exposure fetch for the selected expiry (no
    market fetch).  The chart is drawn again in the colours of the new theme
    when that fetch settles, from the payload it brings. *)
Theorem theme_toggle_refetches (p : Page) (plot : Plot) :
  gamma_exposure_chart p = Some (CardPlot plot) ->
  pending p = [] ->
  let q := toggleTheme p in
  let n := List.length (requests p) in
  let e := selected_expiry p in
  body_class q = flip (body_class p)
  /\ stored_theme q = Some (flip (body_class p))
  /\ market_card q = market_card p
  /\ gamma_exposure_chart q = Some CardLoading
  /\ requests q = requests p ++ [exposure_url e]
  /\ pending q = [(n, AwaitExposure e)]
  /\ (forall payload,
         gamma_exposure_chart (exposureSettled n (Json payload) q)
         = Some (CardPlot
                   (fst (createGammaExposurePlot
                           (isDarkMode (flip (body_class p))) (random p)
                           payload e)))).
Proof.
  intros Hc Hp q n e.
  assert (gamma_exposure_chart
            (initTradingViewWidget
               (updateThemeToggleIcon
                  (match body_class p with
                   | DarkMode => with_theme LightMode (Some LightMode) p
                   | LightMode => with_theme DarkMode (Some DarkMode) p
                   end))) = Some (CardPlot plot)) as Hc'.
  { unfold initTradingViewWidget, updateThemeToggleIcon.
    destruct (body_class p); cbn; destruct (tradingview_container p); exact Hc. }
  subst q. unfold toggleTheme, initGammaExposureChart.
  rewrite Hc'. clear Hc'.
  unfold exposureSettled, fetch, initTradingViewWidget, updateThemeToggleIcon.
  destruct (body_class p) eqn:Eb; cbn; destruct (tradingview_container p);
    cbn; rewrite ?Hp; cbn; fold (selected_expiry p); fold e; fold n;
    rewrite ?Nat.eqb_refl; cbn;
    repeat split; intros payload;
    destruct (createGammaExposurePlot _ (random p) payload e); reflexivity.
Qed.

Lemma theme_toggle_refetches_witness :
  (exists plot, gamma_exposure_chart rendered = Some (CardPlot plot))
  /\ pending rendered = []
  /\ requests (toggleTheme rendered) = requests rendered ++ [exposure_url "all"].
Proof.
  split; [eexists; reflexivity|].
  split; [reflexivity|].
  eapply (theme_toggle_refetches rendered); reflexivity.
Defined.

(** C7.  In a cycle whose exposure fetch fails (no connection, a status that
    is not ok, or a body that is not JSON) and whose market fetch brings a
    snapshot, in whichever order the two settle: the spot price shows the
    snapshot's price, the error state is on the exposure card and the market
    card is what a lone successful market update would make it, the only
    error logged is the exposure one (when the timestamp prints), nothing
    stays pending, and the next cycle runs, issuing both fetches again. *)
Theorem failed_exposure_is_card_local (localTime : string -> option string)
        (p : Page) (c : Card) (old : option Fixed2)
        (m : MarketSnapshot) (r : FetchResult (option (list ExposureRecord))) :
  gamma_exposure_chart p = Some c ->
  spot_value (market_card p) = Some old ->
  well_numbered p ->
  failed r = true ->
  let n := List.length (requests p) in
  let started := refreshData p in
  forall q,
    q = exposureSettled (n + 1) r
          (marketSettled localTime n (Json m) started)
    \/ q = marketSettled localTime n (Json m)
             (exposureSettled (n + 1) r started) ->
    spot_value (market_card q) = Some (Some (toFixed2 (spot_price m)))
    /\ market_card q = fst (updateMarketDisplay localTime m (market_card p))
    /\ gamma_exposure_chart q = Some CardError
    /\ In exposure_error (console_errors q)
    /\ (snd (updateMarketDisplay localTime m (market_card p)) = false ->
        console_errors q = console_errors p ++ [exposure_error])
    /\ pending q = pending p
    /\ well_numbered q
    /\ requests (refreshData q)
       = requests q ++ [market_url; exposure_url (selected_expiry q)]
    /\ pending (refreshData q)
       = pending q ++ [(n + 2, AwaitMarket);
                       (n + 3, AwaitExposure (selected_expiry q))].
Proof.
  intros Hc Hs Hw Hr n started q Hq.
  destruct (cycle_with_failed_exposure localTime p c m r Hc Hw Hr q Hq)
    as (Hm & Hchart & Hpend & Hreq & Hin & Hlog).
  assert (well_numbered q) as Hwq.
  { assert (well_numbered started) as Hws
        by apply (step_well_numbered localTime p IntervalElapsed Hw).
    destruct Hq as [-> | ->].
    - apply (step_well_numbered localTime _ (ExposureFetchSettled (n + 1) r)).
      apply (step_well_numbered localTime _ (MarketFetchSettled n (Json m))).
      exact Hws.
    - apply (step_well_numbered localTime _ (MarketFetchSettled n (Json m))).
      apply (step_well_numbered localTime _ (ExposureFetchSettled (n + 1) r)).
      exact Hws. }
  assert (List.length (requests q) = n + 2) as Hlen.
  { rewrite Hreq. subst started.
    destruct (refreshData_network p c Hc) as [-> _].
    rewrite length_app. cbn. fold n. lia. }
  split; [rewrite Hm; now apply (updateMarketDisplay_spot localTime m _ old)|].
  split; [exact Hm|].
  split; [exact Hchart|].
  split; [exact Hin|].
  split; [exact Hlog|].
  split; [exact Hpend|].
  split; [exact Hwq|].
  destruct (refreshData_network q CardError Hchart) as (Hr1 & Hr2).
  rewrite Hlen in Hr2.
  replace (n + 2 + 1) with (n + 3) in Hr2 by lia.
  split; [exact Hr1 | exact Hr2].
Qed.

Lemma failed_exposure_is_card_local_witness :
  (exists c, gamma_exposure_chart rendered = Some c)
  /\ spot_value (market_card rendered)
     = Some (Some {| minus := false; hundredths := 566713 |})
  /\ well_numbered rendered
  /\ failed (@NotOk (option (list ExposureRecord))) = true
  /\ let q := marketSettled clock (List.length (requests rendered)) (Json snapshot)
                (exposureSettled (List.length (requests rendered) + 1) NotOk
                   (refreshData rendered)) in
     spot_value (market_card q) = Some (Some (toFixed2 (spot_price snapshot)))
     /\ gamma_exposure_chart q = Some CardError
     /\ pending q = pending rendered.
Proof.
  assert (gamma_exposure_chart rendered
          = Some (CardPlot (fst (createGammaExposurePlot
                                   true half (Some two_records) "all"))))
    as Hc by (vm_compute; reflexivity).
  assert (spot_value (market_card rendered)
          = Some (Some {| minus := false; hundredths := 566713 |}))
    as Hs by (vm_compute; reflexivity).
  assert (well_numbered rendered) as Hw
      by (unfold well_numbered; vm_compute; constructor).
  split; [eexists; exact Hc|].
  split; [exact Hs|].
  split; [exact Hw|].
  split; [reflexivity|].
  cbv zeta.
  destruct (failed_exposure_is_card_local clock rendered _ _ snapshot NotOk
              Hc Hs Hw eq_refl _ (or_intror eq_refl))
    as (Hspot & _ & Hchart & _ & _ & Hpend & _).
  split; [exact Hspot|]. split; [exact Hchart | exact Hpend].
Defined.

End PipelineClaims.

(** ** The pause gate *)

Module PauseClaims.
Import PauseVariant.

(** C8.  While [pauseUpdates] is set, a firing of the refresh timer and each
    of the data-load calls leave the page exactly as it was: no request
    leaves, nothing is drawn, nothing is logged.  A change of the expiry
    filter records the new filter and, its load being gated too, does no
    more than that. *)
Theorem paused_trigger_is_noop (p : Page) :
  pauseUpdates p = true ->
  refreshData p = p
  /\ loadMarketMetrics p = p
  /\ loadGammaExposureData p = p
  /\ refreshCharts p = p
  /\ requests (refreshData p) = requests p
  /\ pending (refreshData p) = pending p
  /\ gammaPlot (refreshData p) = gammaPlot p
  /\ metric_1_value (refreshData p) = metric_1_value p
  /\ console_errors (refreshData p) = console_errors p
  /\ (forall val, requests (expiryFilterChange val p) = requests p
                  /\ pending (expiryFilterChange val p) = pending p
                  /\ gammaPlot (expiryFilterChange val p) = gammaPlot p
                  /\ console_errors (expiryFilterChange val p) = console_errors p).
Proof.
  intros H.
  unfold refreshData, refreshCharts, expiryFilterChange, loadMarketMetrics,
    loadGammaExposureData.
  cbn. rewrite H. cbn. repeat split.
Qed.

Lemma paused_trigger_is_noop_witness :
  pauseUpdates Samples.paused = true
  /\ refreshData Samples.paused = Samples.paused
  /\ requests (refreshData Samples.paused) = [].
Proof.
  split; [reflexivity|].
  destruct (paused_trigger_is_noop Samples.paused eq_refl)
    as (Hr & _ & _ & _ & Hq & _).
  split; [exact Hr | exact Hq].
Defined.

(** With [pauseUpdates] cleared the same timer firing issues both requests. *)
Lemma running_trigger_fetches (p : Page) :
  pauseUpdates p = false ->
  requests (refreshData p)
  = requests p ++ [ {| url := "/api/market-metrics"; data := [] |};
                    {| url := "/api/gamma-exposure";
                       data := [("expiry_filter", currentExpiryFilter p)] |} ].
Proof.
  intros H.
  unfold refreshData, loadMarketMetrics, loadGammaExposureData.
  rewrite H. cbn. rewrite H. cbn. now rewrite <- app_assoc.
Qed.

End PauseClaims.

(** ** More on the exposure transform *)

Module TransformMore.
Import Dashboard Transform Cases.


Lemma filteredData_length (records : list ExposureRecord) :
  let N := List.length records in
  let step := Nat.max 1 (N / 20) in
  List.length (filteredData records) = (N + step - 1) / step.
Proof.
  intros N step.
  pose proof (step_of_sortedData records) as Hstep. fold N step in Hstep.
  pose proof (filteredData_length_le records) as Hle.
  rewrite Hstep in Hle. fold N in Hle.
  set (L := List.length (filteredData records)) in *.
  assert (0 < step) as Hpos by (unfold step; lia).
  assert (N <= L * step) as Hup by (apply Hle; lia).
  assert (L = 0 \/ (L - 1) * step < N) as Hlow.
  { destruct L as [|L']; [now left | right].
    destruct (Nat.le_gt_cases N ((S L' - 1) * step)) as [H|H]; [|exact H].
    apply Hle in H. lia. }
  apply (Nat.div_unique _ _ _ (N + step - 1 - step * L)); nia.
Qed.

(** X1.  The number of plotted strikes is [ceil(N / step)]: all of them up
    to 39 records, at least 20 from 20 records on, and never more than 39. *)
Theorem bar_count (dark : bool) (r : Random)
        (records : list ExposureRecord) (expiry : string) :
  records <> [] ->
  let N := List.length records in
  let step := Nat.max 1 (N / 20) in
  let p := fst (createGammaExposurePlot dark r (Some records) expiry) in
  exists ys,
    trace_nums p 0 "y" = Some ys
    /\ List.length ys = (N + step - 1) / step
    /\ List.length ys <= 39
    /\ (N <= 39 -> List.length ys = N)
    /\ (20 <= N -> 20 <= List.length ys).
Proof.
  intros Hne N step p.
  destruct (plot_channels dark r records expiry Hne) as (_ & Hy & _).
  pose proof (filteredData_length records) as Hlen. fold N step in Hlen.
  pose proof (filteredData_length_le records) as Hle.
  rewrite (step_of_sortedData records) in Hle. fold N step in Hle.
  pose proof (Nat.div_mod_eq N 20) as Hdm.
  pose proof (Nat.mod_upper_bound N 20 ltac:(lia)) as Hub.
  exists (strikes records). unfold strikes. rewrite length_map.
  split; [exact Hy|]. split; [exact Hlen|].
  split; [apply Hle; unfold step; lia|].
  split.
  - intros HN. rewrite Hlen. unfold step.
    replace (Nat.max 1 (N / 20)) with 1 by lia.
    rewrite Nat.div_1_r. lia.
  - intros HN.
    destruct (Nat.le_gt_cases 20 (List.length (filteredData records)))
      as [H|H]; [exact H|].
    assert (List.length (filteredData records) <= 19) as H19 by lia.
    apply Hle in H19. unfold step in H19. lia.
Qed.

Lemma bar_count_witness :
  Samples.many_records <> []
  /\ exists ys,
      trace_nums (fst (createGammaExposurePlot true Samples.half
                         (Some Samples.many_records) "all")) 0 "y" = Some ys
      /\ List.length ys = 23.
Proof.
  split; [discriminate|].
  destruct (bar_count true Samples.half Samples.many_records "all")
    as (ys & Hy & Hlen & _); [discriminate|].
  exists ys. split; [exact Hy | exact Hlen].
Defined.



Lemma sort_sorted_id {A : Type} (cmp : A -> A -> Q) (key : A -> Q) :
  (forall x y, (cmp x y == key x - key y)%Q) ->
  forall l, StronglySorted (key_le key) l -> sort cmp l = l.
Proof.
  intros Hk l Hs. induction Hs as [|x l Hs IH Hall]; [reflexivity|].
  cbn [sort fold_right]. fold (sort cmp l). rewrite IH.
  destruct l as [|y l]; [reflexivity|].
  cbn [sort_insert].
  apply Forall_inv in Hall.
  apply (compare_le cmp key Hk) in Hall. now rewrite Hall.
Qed.

(** X3.  The sort of the transform is a stable sort by strike: its result is
    a permutation of the payload in ascending strike order, records of equal
    strike keep the order of the payload, an ascending payload is left as it
    is, and sorting twice changes nothing. *)
Theorem sort_by_strike_stable (records : list ExposureRecord) :
  Permutation (sortedData records) records
  /\ StronglySorted (key_le strike_price) (sortedData records)
  /\ (forall k, filter (fun a => Qeq_bool (strike_price a) k) (sortedData records)
                = filter (fun a => Qeq_bool (strike_price a) k) records)
  /\ (StronglySorted (key_le strike_price) records -> sortedData records = records)
  /\ sortedData (sortedData records) = sortedData records.
Proof.
  split; [apply sortedData_perm|].
  split; [apply sortedData_sorted|].
  split; [intros k; apply sortedData_stable|].
  split.
  - apply (sort_sorted_id by_strike strike_price by_strike_key).
  - apply (sort_sorted_id by_strike strike_price by_strike_key).
    apply sortedData_sorted.
Qed.

Lemma sort_by_strike_stable_witness :
  StronglySorted (key_le strike_price) (rev Samples.two_records)
  /\ sortedData (rev Samples.two_records) = rev Samples.two_records.
Proof.
  assert (StronglySorted (key_le strike_price) (rev Samples.two_records)) as Hs.
  { repeat constructor. unfold key_le. cbn. discriminate. }
  split; [exact Hs|].
  destruct (sort_by_strike_stable (rev Samples.two_records))
    as (_ & _ & _ & H & _).
  exact (H Hs).
Defined.

Lemma distinct_strikes_perm (l l' : list ExposureRecord) :
  Permutation l l' -> distinct_strikes l -> distinct_strikes l'.
Proof.
  intros Hp [Hnd Heq]. split.
  - eapply Permutation_NoDup; eassumption.
  - intros a b Ha Hb.
    apply Heq; (eapply Permutation_in; [apply Permutation_sym, Hp | assumption]).
Qed.

Lemma distinct_strikes_tail (x : ExposureRecord) (l : list ExposureRecord) :
  distinct_strikes (x :: l) -> distinct_strikes l.
Proof.
  intros [Hnd Heq]. split.
  - now apply NoDup_cons_iff in Hnd.
  - intros a b Ha Hb. apply Heq; now right.
Qed.

Lemma strictly_sorted (l : list ExposureRecord) :
  StronglySorted (key_le strike_price) l -> distinct_strikes l ->
  StronglySorted (fun a b => (strike_price a < strike_price b)%Q) l.
Proof.
  induction 1 as [|x l Hs IH Hall]; intros Hd; constructor.
  - apply IH. eapply distinct_strikes_tail; eassumption.
  - destruct Hd as [Hnd Heq]. apply NoDup_cons_iff in Hnd.
    rewrite Forall_forall in *. intros y Hy.
    specialize (Hall y Hy). unfold key_le in Hall.
    apply Qle_lteq in Hall. destruct Hall as [Hlt|Heq']; [exact Hlt|].
    assert (x = y) as -> by (apply Heq; [now left | now right | exact Heq']).
    tauto.
Qed.

Lemma strictly_sorted_unique (l1 : list ExposureRecord) :
  forall l2,
    StronglySorted (fun a b => (strike_price a < strike_price b)%Q) l1 ->
    StronglySorted (fun a b => (strike_price a < strike_price b)%Q) l2 ->
    Permutation l1 l2 -> l1 = l2.
Proof.
  induction l1 as [|x t1 IH]; intros l2 H1 H2 Hp.
  - now apply Permutation_nil in Hp.
  - destruct l2 as [|y t2].
    { apply Permutation_sym, Permutation_nil in Hp. discriminate. }
    apply StronglySorted_inv in H1. destruct H1 as [Hs1 Hall1].
    apply StronglySorted_inv in H2. destruct H2 as [Hs2 Hall2].
    rewrite Forall_forall in Hall1, Hall2.
    assert (x = y) as E.
    { assert (In y (x :: t1)) as Hy
          by (eapply Permutation_in; [apply Permutation_sym, Hp | now left]).
      assert (In x (y :: t2)) as Hx
          by (eapply Permutation_in; [exact Hp | now left]).
      destruct Hy as [Hy|Hy]; [exact Hy|].
      destruct Hx as [Hx|Hx]; [now symmetry|].
      specialize (Hall1 y Hy). specialize (Hall2 x Hx). lra. }
    subst y. f_equal. apply IH; try assumption.
    eapply Permutation_cons_inv; exact Hp.
Qed.

(** X4.  When no two records share a strike, the order in which the backend
    sends them does not matter: every reordering of the payload gives the
    same plot and leaves the random source alike. *)
Theorem payload_order_irrelevant (records records' : list ExposureRecord)
        (dark : bool) (r : Random) (expiry : string) :
  distinct_strikes records ->
  Permutation records records' ->
  createGammaExposurePlot dark r (Some records') expiry
  = createGammaExposurePlot dark r (Some records) expiry.
Proof.
  intros Hd Hp.
  assert (sortedData records' = sortedData records) as E.
  { apply strictly_sorted_unique.
    - apply strictly_sorted; [apply sortedData_sorted|].
      eapply distinct_strikes_perm; [|exact Hd].
      eapply Permutation_trans; [exact Hp|].
      apply Permutation_sym, sortedData_perm.
    - apply strictly_sorted; [apply sortedData_sorted|].
      eapply distinct_strikes_perm; [|exact Hd].
      apply Permutation_sym, sortedData_perm.
    - eapply Permutation_trans; [apply sortedData_perm|].
      eapply Permutation_trans; [apply Permutation_sym, Hp|].
      apply Permutation_sym, sortedData_perm. }
  destruct records as [|a l], records' as [|a' l'].
  - reflexivity.
  - apply Permutation_nil in Hp. discriminate.
  - apply Permutation_sym, Permutation_nil in Hp. discriminate.
  - unfold createGammaExposurePlot, real_traces, strikes, callValues,
      putValues, netValues, filteredData.
    now rewrite E.
Qed.

Lemma two_records_distinct : distinct_strikes Samples.two_records.
Proof.
  split.
  - repeat constructor; simpl; intuition discriminate.
  - intros a b [<-|[<-|[]]] [<-|[<-|[]]] H; try reflexivity;
      vm_compute in H; discriminate H.
Qed.

Lemma payload_order_irrelevant_witness :
  distinct_strikes Samples.two_records
  /\ Permutation Samples.two_records (rev Samples.two_records)
  /\ createGammaExposurePlot true Samples.half
       (Some (rev Samples.two_records)) "all"
     = createGammaExposurePlot true Samples.half
         (Some Samples.two_records) "all".
Proof.
  split; [exact two_records_distinct|].
  split; [apply Permutation_rev|].
  apply (payload_order_irrelevant Samples.two_records
           (rev Samples.two_records) true Samples.half "all"
           two_records_distinct (Permutation_rev _)).
Defined.

(** X5.  The transform decimates, it does not aggregate: the strike, call,
    put and net value at one position of the plot all come from one record
    of the payload, the one at that position times [step] in strike order. *)
Theorem one_record_per_bar (dark : bool) (r : Random)
        (records : list ExposureRecord) (expiry : string) :
  records <> [] ->
  let step := Nat.max 1 (List.length records / 20) in
  let p := fst (createGammaExposurePlot dark r (Some records) expiry) in
  exists ys cs ps ns,
    trace_nums p 0 "y" = Some ys
    /\ trace_nums p 0 "x" = Some cs
    /\ trace_nums p 1 "x" = Some ps
    /\ trace_nums p 2 "x" = Some ns
    /\ forall k, k < List.length ys ->
         exists item,
           In item records
           /\ nth_error (sortedData records) (k * step) = Some item
           /\ nth_error ys k = Some (strike_price item)
           /\ nth_error cs k = Some (call_value item)
           /\ nth_error ps k = Some (put_value item)
           /\ nth_error ns k = Some (net_value item).
Proof.
  intros Hne step p.
  destruct (plot_channels dark r records expiry Hne)
    as (_ & Hy & _ & _ & Hc & Hp & Hn).
  exists (strikes records), (callValues records), (putValues records),
         (netValues records).
  split; [exact Hy|]. split; [exact Hc|]. split; [exact Hp|].
  split; [exact Hn|].
  intros k Hk. unfold strikes in Hk. rewrite length_map in Hk.
  destruct (nth_error (filteredData records) k) as [item|] eqn:E.
  2:{ apply nth_error_None in E. lia. }
  exists item.
  split; [apply filteredData_In; eapply nth_error_In; exact E|].
  split; [rewrite <- E, filteredData_nth, step_of_sortedData; reflexivity|].
  unfold strikes, callValues, putValues, netValues.
  rewrite !nth_error_map, E. repeat split.
Qed.

Lemma one_record_per_bar_witness :
  Samples.many_records <> []
  /\ exists ys,
      trace_nums (fst (createGammaExposurePlot true Samples.half
                         (Some Samples.many_records) "all")) 0 "y" = Some ys.
Proof.
  split; [discriminate|].
  destruct (one_record_per_bar true Samples.half Samples.many_records "all")
    as (ys & _ & _ & _ & Hy & _); [discriminate|].
  exists ys. exact Hy.
Defined.

(** X6.  The numbers are plotted at their value: a call or a total exposure
    as the backend sent it, a put exposure at minus its magnitude, and a
    [null] exposure as zero. *)
Theorem exposures_plotted_at_their_value (item : ExposureRecord) :
  (forall c, call_gamma_exposure item = Some c -> (call_value item == c)%Q)
  /\ (forall t, total_gamma_exposure item = Some t -> (net_value item == t)%Q)
  /\ (forall v, put_gamma_exposure item = Some v ->
                (put_value item == - Qabs v)%Q)
  /\ (call_gamma_exposure item = None -> call_value item = 0%Q)
  /\ (total_gamma_exposure item = None -> net_value item = 0%Q)
  /\ (put_gamma_exposure item = None -> (put_value item == 0)%Q).
Proof.
  unfold call_value, net_value, put_value.
  split; [intros c ->; apply or_zero_value|].
  split; [intros t ->; apply or_zero_value|].
  split; [intros v ->; now rewrite or_zero_value|].
  split; [now intros ->|].
  split; [now intros ->|].
  intros ->. reflexivity.
Qed.

Lemma exposures_plotted_at_their_value_witness :
  put_gamma_exposure (Samples.record 100 5 3 2) = Some 3%Q
  /\ (put_value (Samples.record 100 5 3 2) == - Qabs 3)%Q.
Proof.
  split; [reflexivity|].
  apply (exposures_plotted_at_their_value (Samples.record 100 5 3 2)).
  reflexivity.
Defined.

(** X7.  The placeholder drawn for an empty payload takes exactly ten draws
    from the random source, five for the calls and then five for the puts.
    Each value is computed in doubles, the product and the sum rounded in
    turn; with draws in [0, 1) every sample call lies between 20 and 120
    and every sample put between -120 and -20, below the axis like the real
    puts. *)
Theorem placeholder_values (dark : bool) (r : Random)
        (payload : option (list ExposureRecord)) (expiry : string) :
  unit_draws r ->
  payload = None \/ payload = Some [] ->
  let p := fst (createGammaExposurePlot dark r payload expiry) in
  let r' := snd (createGammaExposurePlot dark r payload expiry) in
  exists cs ps,
    trace_nums p 0 "x" = Some cs
    /\ trace_nums p 1 "x" = Some ps
    /\ cs = map (fun i => binary64 (binary64 (draws r (cursor r + i) * 100) + 20))
                (seq 0 5)
    /\ ps = map (fun i => binary64
                            (binary64 (- draws r (cursor r + 5 + i) * 100) - 20))
                (seq 0 5)
    /\ Forall (fun c => (20 <= c)%Q /\ (c <= 120)%Q) cs
    /\ Forall (fun v => (-120 <= v)%Q /\ (v <= -20)%Q) ps
    /\ cursor r' = cursor r + 10
    /\ draws r' = draws r.
Proof.
  intros Hd Hempty p r'.
  exists (sample_calls r), (sample_puts r).
  assert (p = {| plot_data := sample_traces r;
                 plot_layout := layout_of dark expiry;
                 plot_config := config |}
          /\ r' = {| draws := draws r; cursor := cursor r + 10 |}) as [Ep Er]
      by (destruct Hempty as [-> | ->]; split; reflexivity).
  rewrite Ep, Er.
  unfold trace_nums, sample_traces.
  cbn [plot_data nth_error get assoc String.eqb Ascii.eqb Bool.eqb].
  rewrite !as_nums_nums.
  split; [reflexivity|]. split; [reflexivity|].
  split; [reflexivity|]. split; [reflexivity|].
  split.
  - unfold sample_calls. apply Forall_map, Forall_forall. intros i _.
    destruct (Hd (cursor r + i)) as [H0 H1].
    set (d := draws r (cursor r + i)) in *.
    assert (Qabs (d * 100) < 2 ^ 53)%Q as Hm
        by (apply Qabs_Qlt_condition; split;
            [apply Qlt_le_trans with 0%Q; [reflexivity | lra]
            | apply Qlt_trans with 100%Q; [lra | reflexivity]]).
    destruct (Doubles.binary64_integer_bounds (d * 100) 0 Hm) as [_ Hlo].
    destruct (Doubles.binary64_integer_bounds (d * 100) 100 Hm) as [Hup _].
    change (inject_Z 0) with 0%Q in Hlo. change (inject_Z 100) with 100%Q in Hup.
    specialize (Hlo ltac:(lra)). specialize (Hup ltac:(lra)).
    set (b := binary64 (d * 100)) in *.
    assert (Qabs (b + 20) < 2 ^ 53)%Q as Hm2
        by (apply Qabs_Qlt_condition; split;
            [apply Qlt_le_trans with 0%Q; [reflexivity | lra]
            | apply Qle_lt_trans with 120%Q; [lra | reflexivity]]).
    destruct (Doubles.binary64_integer_bounds (b + 20) 20 Hm2) as [_ Hlo2].
    destruct (Doubles.binary64_integer_bounds (b + 20) 120 Hm2) as [Hup2 _].
    change (inject_Z 20) with 20%Q in Hlo2.
    change (inject_Z 120) with 120%Q in Hup2.
    split; [apply Hlo2; lra | apply Hup2; lra].
  - split; [|split; reflexivity].
    unfold sample_puts. apply Forall_map, Forall_forall. intros i _.
    destruct (Hd (cursor r + List.length sample_strikes + i)) as [H0 H1].
    set (d := draws r (cursor r + List.length sample_strikes + i)) in *.
    assert (Qabs (- d * 100) < 2 ^ 53)%Q as Hm
        by (apply Qabs_Qlt_condition; split;
            [apply Qlt_le_trans with (-100)%Q; [reflexivity | lra]
            | apply Qle_lt_trans with 0%Q; [lra | reflexivity]]).
    destruct (Doubles.binary64_integer_bounds (- d * 100) (-100) Hm) as [_ Hlo].
    destruct (Doubles.binary64_integer_bounds (- d * 100) 0 Hm) as [Hup _].
    change (inject_Z 0) with 0%Q in Hup.
    change (inject_Z (-100)) with (-100)%Q in Hlo.
    specialize (Hlo ltac:(lra)). specialize (Hup ltac:(lra)).
    set (b := binary64 (- d * 100)) in *.
    assert (Qabs (b - 20) < 2 ^ 53)%Q as Hm2
        by (apply Qabs_Qlt_condition; split;
            [apply Qlt_le_trans with (-120)%Q; [reflexivity | lra]
            | apply Qle_lt_trans with 0%Q; [lra | reflexivity]]).
    destruct (Doubles.binary64_integer_bounds (b - 20) (-120) Hm2) as [_ Hlo2].
    destruct (Doubles.binary64_integer_bounds (b - 20) (-20) Hm2) as [Hup2 _].
    change (inject_Z (-120)) with (-120)%Q in Hlo2.
    change (inject_Z (-20)) with (-20)%Q in Hup2.
    split; [apply Hlo2; lra | apply Hup2; lra].
Qed.

Lemma tenth_unit_draws : unit_draws tenth.
Proof. intros i. cbn. split; [discriminate | reflexivity]. Qed.

Lemma placeholder_values_witness :
  unit_draws tenth
  /\ (@None (list ExposureRecord) = None \/ @None (list ExposureRecord) = Some [])
  /\ trace_nums (fst (createGammaExposurePlot true tenth None "all")) 0 "x"
     = Some [30; 30; 30; 30; 30]%Q
  /\ trace_nums (fst (createGammaExposurePlot true tenth None "all")) 1 "x"
     = Some [-30; -30; -30; -30; -30]%Q
  /\ cursor (snd (createGammaExposurePlot true tenth None "all")) = 13.
Proof.
  split; [exact tenth_unit_draws|].
  split; [now left|].
  destruct (placeholder_values true tenth None "all" tenth_unit_draws
              (or_introl eq_refl))
    as (cs & ps & Hcs & Hps & Ec & Ep & _ & _ & Hc & _).
  split; [rewrite Hcs, Ec; vm_compute; reflexivity|].
  split; [rewrite Hps, Ep; vm_compute; reflexivity|].
  exact Hc.
Defined.

Lemma sorted_nth_le (l : list ExposureRecord) :
  StronglySorted (key_le strike_price) l ->
  forall i j a b, i <= j ->
    nth_error l i = Some a -> nth_error l j = Some b ->
    (strike_price a <= strike_price b)%Q.
Proof.
  induction 1 as [|x l Hs IH Hall]; intros i j a b Hij Ha Hb.
  - now rewrite nth_error_nil in Ha.
  - destruct i as [|i], j as [|j]; cbn in Ha, Hb.
    + injection Ha as <-. injection Hb as <-. apply Qle_refl.
    + injection Ha as <-. rewrite Forall_forall in Hall.
      apply Hall. eapply nth_error_In; exact Hb.
    + lia.
    + eapply (IH i j); [lia | exact Ha | exact Hb].
Qed.

(** X8.  The highest strike is not always plotted.  When no two records
    share a strike and [step] does not divide [N - 1], the record with the
    highest strike, the last one in strike order, is dropped: neither the
    record nor its strike appears in the plot. *)
Theorem highest_strike_dropped (records : list ExposureRecord)
        (top : ExposureRecord) :
  let N := List.length records in
  let step := Nat.max 1 (N / 20) in
  distinct_strikes records ->
  nth_error (sortedData records) (N - 1) = Some top ->
  (N - 1) mod step <> 0 ->
  In top records
  /\ (forall item, In item records ->
                   (strike_price item <= strike_price top)%Q)
  /\ ~ In top (filteredData records)
  /\ ~ In (strike_price top) (strikes records).
Proof.
  intros N step Hd Htop Hmod.
  pose proof (sortedData_perm records) as Hperm.
  pose proof (sortedData_sorted records) as Hsorted.
  assert (List.length (sortedData records) = N) as Hlen
      by apply Permutation_length, Hperm.
  assert (N - 1 < N) as HN.
  { assert (nth_error (sortedData records) (N - 1) <> None) as H
        by (rewrite Htop; discriminate).
    apply nth_error_Some in H. lia. }
  assert (In top records) as Hin
      by (eapply Permutation_in; [exact Hperm | eapply nth_error_In; exact Htop]).
  assert (~ In top (filteredData records)) as Hout.
  { intros H. apply In_nth_error in H. destruct H as [k Hk].
    rewrite filteredData_nth, step_of_sortedData in Hk. fold N step in Hk.
    assert (NoDup (sortedData records)) as Hnd
        by (eapply Permutation_NoDup; [apply Permutation_sym, Hperm | apply Hd]).
    rewrite NoDup_nth_error in Hnd.
    assert (N - 1 = k * step) as E
        by (apply Hnd; [lia | now rewrite Htop, Hk]).
    apply Hmod. rewrite E. apply Nat.Div0.mod_mul. }
  split; [exact Hin|].
  split.
  - intros item Hitem.
    apply (Permutation_in _ (Permutation_sym Hperm)) in Hitem.
    apply In_nth_error in Hitem. destruct Hitem as [i Hi].
    assert (i < N) as HiN
        by (rewrite <- Hlen; apply nth_error_Some; rewrite Hi; discriminate).
    apply (sorted_nth_le _ Hsorted i (N - 1)); [lia | exact Hi | exact Htop].
  - split; [exact Hout|].
    intros H. unfold strikes in H. apply in_map_iff in H.
    destruct H as (item & Hs & Hitem).
    assert (item = top) as ->.
    { apply Hd; [now apply filteredData_In | exact Hin | now rewrite Hs]. }
    contradiction.
Qed.

Lemma forty_four_distinct : distinct_strikes forty_four.
Proof.
  unfold forty_four. split.
  - apply Injective_map_NoDup; [|apply seq_NoDup].
    intros i j H. apply (f_equal strike_price) in H.
    unfold Samples.record, inject_Z in H. cbn [strike_price] in H.
    apply (f_equal Qnum) in H. cbn [Qnum] in H. lia.
  - intros a b Ha Hb H.
    apply in_map_iff in Ha. destruct Ha as (i & <- & _).
    apply in_map_iff in Hb. destruct Hb as (j & <- & _).
    unfold Qeq, Samples.record, inject_Z in H.
    cbn [strike_price Qnum Qden] in H.
    assert (i = j) as -> by lia. reflexivity.
Qed.

Lemma highest_strike_dropped_witness :
  distinct_strikes forty_four
  /\ nth_error (sortedData forty_four) (List.length forty_four - 1)
     = Some (Samples.record 5715 43 (-33) 76)
  /\ (List.length forty_four - 1)
       mod Nat.max 1 (List.length forty_four / 20) <> 0
  /\ ~ In 5715%Q (strikes forty_four).
Proof.
  assert (nth_error (sortedData forty_four) (List.length forty_four - 1)
          = Some (Samples.record 5715 43 (-33) 76)) as Htop
      by (vm_compute; reflexivity).
  assert ((List.length forty_four - 1)
            mod Nat.max 1 (List.length forty_four / 20) <> 0) as Hmod
      by (vm_compute; discriminate).
  split; [exact forty_four_distinct|].
  split; [exact Htop|].
  split; [exact Hmod|].
  apply (highest_strike_dropped forty_four (Samples.record 5715 43 (-33) 76)
           forty_four_distinct Htop Hmod).
Defined.

End TransformMore.

(** ** More on the refresh pipeline *)

Module PipelineMore.
Import Dashboard Pipeline Cases.

Ltac theme_goal :=
  repeat split; try reflexivity; try assumption;
  first [ left; reflexivity | right; reflexivity | left; assumption
        | right; assumption | idtac ].

Lemma toggleTheme_theme_consistent (p : Page) : theme_consistent (toggleTheme p).
Proof.
  unfold theme_consistent, toggleTheme, initGammaExposureChart,
    initTradingViewWidget, updateThemeToggleIcon, fetch.
  destruct (body_class p); cbn;
    destruct (tradingview_container p) eqn:Ew; cbn; rewrite ?Ew;
    destruct (gamma_exposure_chart p); cbn; theme_goal.
Qed.

(** [initGammaExposureChart] touches the chart and the network only. *)
Lemma initGammaExposureChart_frame (p : Page) :
  body_class (initGammaExposureChart p) = body_class p
  /\ stored_theme (initGammaExposureChart p) = stored_theme p
  /\ theme_toggle (initGammaExposureChart p) = theme_toggle p
  /\ tradingview_container (initGammaExposureChart p) = tradingview_container p
  /\ expiry_select (initGammaExposureChart p) = expiry_select p
  /\ market_card (initGammaExposureChart p) = market_card p
  /\ console_errors (initGammaExposureChart p) = console_errors p
  /\ random (initGammaExposureChart p) = random p.
Proof.
  unfold initGammaExposureChart, fetch.
  destruct (gamma_exposure_chart p); cbn; repeat split.
Qed.

Lemma initGammaExposureChart_theme (p : Page) :
  theme_consistent p -> theme_consistent (initGammaExposureChart p).
Proof.
  unfold theme_consistent, initGammaExposureChart, fetch.
  intros (Hi & Hs & Hw).
  destruct (gamma_exposure_chart p); cbn; theme_goal.
Qed.

Lemma step_theme_consistent (localTime : string -> option string)
      (p : Page) (e : Event) :
  theme_consistent p -> theme_consistent (step localTime p e).
Proof.
  intros H. destruct e as [| |value| |id r|id r]; cbn [step].
  - apply initGammaExposureChart_theme. exact H.
  - apply toggleTheme_theme_consistent.
  - destruct (expiry_select p); [|exact H].
    apply initGammaExposureChart_theme. exact H.
  - destruct (expiry_select p); [|exact H].
    apply initGammaExposureChart_theme. exact H.
  - unfold marketSettled.
    destruct (take id (pending p)) as [[[|e] rest]|]; try exact H.
    destruct r as [| | |data]; try exact H.
    cbn. destruct (updateMarketDisplay localTime data (market_card p))
      as [card []]; exact H.
  - unfold exposureSettled.
    destruct (take id (pending p)) as [[[|e] rest]|]; try exact H.
    destruct r as [| | |data]; try exact H.
    cbn. destruct (createGammaExposurePlot _ _ data e); exact H.
Qed.

(** X9.  From the moment the load listener has run, whatever happens next,
    the theme shows the same everywhere: the toggle carries the sun exactly
    in dark mode, a stored preference is the class of the body, and the
    price widget, where the page has one, was built for that class. *)
Theorem theme_shown_alike (localTime : string -> option string)
        (es : list Event) (p : Page) :
  theme_consistent (run localTime es (DOMContentLoaded p)).
Proof.
  assert (theme_consistent (DOMContentLoaded p)) as H0.
  { unfold theme_consistent, DOMContentLoaded, loadMarketData,
      initGammaExposureChart, initTradingViewWidget, updateThemeToggleIcon,
      fetch.
    destruct (stored_theme p) as [[|]|]; cbn;
      destruct (tradingview_container p) eqn:Ew; cbn; rewrite ?Ew;
      destruct (gamma_exposure_chart p); cbn;
      destruct (expiry_select p); cbn; rewrite ?Ew; theme_goal. }
  generalize dependent (DOMContentLoaded p). clear p.
  induction es as [|e es IH]; intros q Hq; [exact Hq|].
  apply IH, step_theme_consistent, Hq.
Qed.

(** X10.  The theme is a preference that survives: a toggle flips the class
    of the body and stores it, a second toggle flips it back, and a page
    opened afresh on the stored preference comes up with the class and the
    icon the page had after the toggle. *)
Theorem theme_survives_reload (p : Page) (r : Random) :
  let q := toggleTheme p in
  let fresh := DOMContentLoaded (index_html (stored_theme q) r) in
  body_class q = flip (body_class p)
  /\ stored_theme q = Some (flip (body_class p))
  /\ body_class (toggleTheme q) = body_class p
  /\ body_class fresh = body_class q
  /\ theme_toggle fresh = theme_toggle q
  /\ stored_theme fresh = stored_theme q.
Proof.
  intros q fresh.
  assert (body_class q = flip (body_class p)
          /\ stored_theme q = Some (flip (body_class p))
          /\ theme_toggle q
             = (if isDarkMode (flip (body_class p)) then FaSun else FaMoon))
    as (Hb & Hs & Hi).
  { subst q. unfold toggleTheme.
    destruct (initGammaExposureChart_frame
                (initTradingViewWidget
                   (updateThemeToggleIcon
                      match body_class p with
                      | DarkMode => with_theme LightMode (Some LightMode) p
                      | LightMode => with_theme DarkMode (Some DarkMode) p
                      end))) as (-> & -> & -> & _).
    unfold initTradingViewWidget, updateThemeToggleIcon.
    destruct (body_class p); cbn; destruct (tradingview_container p);
      repeat split. }
  split; [exact Hb|]. split; [exact Hs|].
  split.
  { unfold toggleTheme at 1.
    destruct (initGammaExposureChart_frame
                (initTradingViewWidget
                   (updateThemeToggleIcon
                      match body_class q with
                      | DarkMode => with_theme LightMode (Some LightMode) q
                      | LightMode => with_theme DarkMode (Some DarkMode) q
                      end))) as (-> & _).
    unfold initTradingViewWidget, updateThemeToggleIcon. rewrite Hb.
    destruct (body_class p); cbn; destruct (tradingview_container q);
      reflexivity. }
  subst fresh. rewrite Hb, Hs, Hi.
  destruct (body_class p); repeat split.
Qed.

Lemma step_requests (localTime : string -> option string)
      (p : Page) (e : Event) :
  exists added,
    requests (step localTime p e) = requests p ++ added
    /\ List.length added <= (if is_trigger e then 2 else 0)
    /\ List.length (pending (step localTime p e))
       <= List.length (pending p) + List.length added.
Proof.
  destruct e as [| |value| |id r|id r]; cbn [step is_trigger].
  - unfold refreshData, initGammaExposureChart, loadMarketData, fetch. cbn.
    destruct (gamma_exposure_chart p); cbn.
    + eexists [_; _]. rewrite <- app_assoc. cbn.
      split; [reflexivity|]. rewrite !length_app. cbn. lia.
    + eexists [_]. split; [reflexivity|]. rewrite !length_app. cbn. lia.
  - unfold toggleTheme, initGammaExposureChart, initTradingViewWidget,
      updateThemeToggleIcon, fetch.
    destruct (body_class p); cbn; destruct (tradingview_container p); cbn;
      destruct (gamma_exposure_chart p); cbn;
      try (eexists [_]; split; [reflexivity|]; rewrite !length_app; cbn; lia);
      (exists []; rewrite app_nil_r; cbn; split; [reflexivity | lia]).
  - unfold updateGammaExposureChart, initGammaExposureChart, fetch.
    destruct (expiry_select p); cbn; destruct (gamma_exposure_chart p); cbn;
      try (eexists [_]; split; [reflexivity|]; rewrite !length_app; cbn; lia);
      (exists []; rewrite app_nil_r; cbn; split; [reflexivity | lia]).
  - unfold updateGammaExposureChart, initGammaExposureChart, fetch.
    destruct (expiry_select p); cbn; destruct (gamma_exposure_chart p); cbn;
      try (eexists [_]; split; [reflexivity|]; rewrite !length_app; cbn; lia);
      (exists []; rewrite app_nil_r; cbn; split; [reflexivity | lia]).
  - exists []. rewrite app_nil_r. unfold marketSettled.
    pose proof (take_length id (pending p)) as Ht.
    destruct (take id (pending p)) as [[[|e] rest]|];
      try (cbn; split; [reflexivity | lia]).
    destruct r as [| | |data]; try (cbn; split; [reflexivity | lia]).
    cbn. destruct (updateMarketDisplay localTime data (market_card p))
      as [card []]; cbn; split; try reflexivity; lia.
  - exists []. rewrite app_nil_r. unfold exposureSettled.
    pose proof (take_length id (pending p)) as Ht.
    destruct (take id (pending p)) as [[[|e] rest]|];
      try (cbn; split; [reflexivity | lia]).
    destruct r as [| | |data]; try (cbn; split; [reflexivity | lia]).
    cbn. destruct (createGammaExposurePlot _ _ data e); cbn.
    split; [reflexivity | lia].
Qed.

(** X11.  Requests come from the listeners only.  Over any sequence of
    events the log of requests only grows, by at most two per timer firing
    or user action and by none when a fetch settles: a failed fetch is
    never retried.  The fetches in flight grow by no more than the log. *)
Theorem requests_only_from_triggers (localTime : string -> option string)
        (es : list Event) (p : Page) :
  exists added,
    requests (run localTime es p) = requests p ++ added
    /\ List.length added <= 2 * List.length (filter is_trigger es)
    /\ List.length (pending (run localTime es p))
       <= List.length (pending p) + List.length added.
Proof.
  revert p. induction es as [|e es IH]; intros p.
  - exists []. rewrite app_nil_r. cbn. split; [reflexivity | lia].
  - cbn [run fold_left]. fold (run localTime es (step localTime p e)).
    destruct (step_requests localTime p e) as (a1 & E1 & L1 & P1).
    destruct (IH (step localTime p e)) as (a2 & E2 & L2 & P2).
    exists (a1 ++ a2). rewrite E2, E1, <- app_assoc.
    split; [reflexivity|]. rewrite length_app. cbn [filter].
    destruct (is_trigger e); cbn [List.length]; lia.
Qed.

Lemma step_without_chart (localTime : string -> option string)
      (p : Page) (e : Event) :
  gamma_exposure_chart p = None ->
  Forall (fun ik => snd ik = AwaitMarket) (pending p) ->
  gamma_exposure_chart (step localTime p e) = None
  /\ Forall (fun ik => snd ik = AwaitMarket) (pending (step localTime p e))
  /\ exists added, requests (step localTime p e) = requests p ++ added
                   /\ Forall (eq market_url) added.
Proof.
  intros Hc Hp. destruct e as [| |value| |id r|id r]; cbn [step].
  - unfold refreshData, initGammaExposureChart, loadMarketData, fetch.
    cbn. rewrite Hc. cbn. split; [exact Hc|]. split.
    + apply Forall_app. split; [exact Hp | repeat constructor].
    + exists [market_url]. split; [reflexivity | repeat constructor].
  - unfold toggleTheme, initGammaExposureChart, initTradingViewWidget,
      updateThemeToggleIcon.
    destruct (body_class p); cbn; destruct (tradingview_container p); cbn;
      rewrite Hc; cbn; (split; [first [exact Hc | reflexivity]|]; split; [exact Hp|]);
      (exists []; rewrite app_nil_r; split; [reflexivity | constructor]).
  - unfold updateGammaExposureChart, initGammaExposureChart.
    destruct (expiry_select p); cbn; rewrite ?Hc; cbn;
      (split; [first [exact Hc | reflexivity]|]; split; [exact Hp|]);
      (exists []; rewrite app_nil_r; split; [reflexivity | constructor]).
  - unfold updateGammaExposureChart, initGammaExposureChart.
    destruct (expiry_select p); rewrite ?Hc;
      (split; [first [exact Hc | reflexivity]|]; split; [exact Hp|]);
      (exists []; rewrite app_nil_r; split; [reflexivity | constructor]).
  - unfold marketSettled.
    pose proof (take_Forall _ id _ Hp) as Ht.
    destruct (take id (pending p)) as [[[|e] rest]|];
      try (split; [exact Hc|]; split; [exact Hp|];
           (exists []; rewrite app_nil_r; split; [reflexivity | constructor])).
    destruct r as [| | |data]; cbn;
      try (split; [exact Hc|]; split; [exact Ht|];
           (exists []; rewrite app_nil_r; split; [reflexivity | constructor])).
    destruct (updateMarketDisplay localTime data (market_card p))
      as [card []]; cbn;
      (split; [exact Hc|]; split; [exact Ht|];
       (exists []; rewrite app_nil_r; split; [reflexivity | constructor])).
  - unfold exposureSettled.
    destruct (take id (pending p)) as [[[|e] rest]|] eqn:Et;
      try (split; [exact Hc|]; split; [exact Hp|];
           (exists []; rewrite app_nil_r; split; [reflexivity | constructor])).
    apply take_In in Et. rewrite Forall_forall in Hp.
    specialize (Hp _ Et). discriminate Hp.
Qed.

(** X12.  A page without the chart container never asks for exposures.
    Whatever the events, the container stays absent, every request that
    leaves is a market fetch, and a theme toggle sends nothing at all. *)
Theorem without_chart_container (localTime : string -> option string)
        (es : list Event) (p : Page) :
  gamma_exposure_chart p = None ->
  Forall (fun ik => snd ik = AwaitMarket) (pending p) ->
  gamma_exposure_chart (run localTime es p) = None
  /\ (exists added, requests (run localTime es p) = requests p ++ added
                    /\ Forall (eq market_url) added)
  /\ requests (toggleTheme p) = requests p
  /\ initGammaExposureChart p = p.
Proof.
  intros Hc Hp.
  assert (requests (toggleTheme p) = requests p /\ initGammaExposureChart p = p)
    as [Ht Hi].
  { unfold toggleTheme, initGammaExposureChart, initTradingViewWidget,
      updateThemeToggleIcon.
    destruct (body_class p); cbn; destruct (tradingview_container p); cbn;
      rewrite Hc; split; reflexivity. }
  split; [|split; [|split; [exact Ht | exact Hi]]];
    clear Ht Hi; revert p Hc Hp; induction es as [|e es IH]; intros p Hc Hp.
  - exact Hc.
  - destruct (step_without_chart localTime p e Hc Hp) as (Hc' & Hp' & _).
    exact (IH _ Hc' Hp').
  - exists []. rewrite app_nil_r. split; [reflexivity | constructor].
  - destruct (step_without_chart localTime p e Hc Hp)
      as (Hc' & Hp' & a1 & E1 & F1).
    destruct (IH _ Hc' Hp') as (a2 & E2 & F2).
    exists (a1 ++ a2). cbn [run fold_left] in *.
    unfold run in E2. rewrite E2, E1, <- app_assoc.
    split; [reflexivity | now apply Forall_app].
Qed.

Lemma without_chart_container_witness :
  gamma_exposure_chart (no_chart Samples.half) = None
  /\ Forall (fun ik => snd ik = AwaitMarket) (pending (no_chart Samples.half))
  /\ requests (run Samples.clock [IntervalElapsed; ThemeToggleClick;
                                  ExpirySelectChange "weekly"]
                   (no_chart Samples.half)) = [market_url]
  /\ requests (toggleTheme (no_chart Samples.half)) = [].
Proof.
  split; [reflexivity|]. split; [constructor|].
  split; [reflexivity|].
  apply (without_chart_container Samples.clock [] (no_chart Samples.half)
           eq_refl (Forall_nil _)).
Defined.

Lemma DOMContentLoaded_requests (p : Page) (c : Card) :
  gamma_exposure_chart p = Some c ->
  requests (DOMContentLoaded p)
  = requests p
    ++ exposure_url (selected_expiry p)
       :: match expiry_select p with
          | Some _ => [market_url]
          | None => []
          end.
Proof.
  intros Hc.
  unfold DOMContentLoaded, initGammaExposureChart, loadMarketData,
    initTradingViewWidget, updateThemeToggleIcon, fetch, selected_expiry.
  destruct (stored_theme p) as [[|]|]; cbn;
    destruct (tradingview_container p); cbn; rewrite Hc; cbn;
    destruct (expiry_select p); cbn; rewrite <- ?app_assoc; reflexivity.
Qed.

(** X13.  Every exposure request carries the expiry the select shows at
    that moment: the value just chosen on an expiry change, and the same
    value on the refresh after it.  A customer change sends the request a
    refresh would, the customer filter is not part of the URL.  On a page
    without the expiry select the load listener stops before it attaches
    the select listeners and before it loads the market data: the one
    request of the load, and those of the timer and of the theme toggle
    later, ask for "All", and a change of a select does nothing. *)
Theorem exposure_request_carries_selection (localTime : string -> option string)
        (p : Page) (c : Card) :
  gamma_exposure_chart p = Some c ->
  (forall old value,
      expiry_select p = Some old ->
      requests (step localTime p (ExpirySelectChange value))
      = requests p ++ [exposure_url value]
      /\ requests (step localTime (step localTime p (ExpirySelectChange value))
                        IntervalElapsed)
         = requests p ++ [exposure_url value; market_url; exposure_url value]
      /\ requests (step localTime p CustomerSelectChange)
         = requests p ++ [exposure_url old]
      /\ expiry_select (step localTime p CustomerSelectChange) = Some old
      /\ requests (DOMContentLoaded p)
         = requests p ++ [exposure_url old; market_url])
  /\ (expiry_select p = None ->
      requests (DOMContentLoaded p) = requests p ++ [exposure_url "All"]
      /\ requests (step localTime p IntervalElapsed)
         = requests p ++ [market_url; exposure_url "All"]
      /\ requests (step localTime p ThemeToggleClick)
         = requests p ++ [exposure_url "All"]
      /\ (forall value, step localTime p (ExpirySelectChange value) = p)
      /\ step localTime p CustomerSelectChange = p).
Proof.
  intros Hc. split.
  - intros old value He. cbn [step]. rewrite He.
    rewrite (DOMContentLoaded_requests p c Hc).
    unfold selected_expiry. rewrite He.
    unfold updateGammaExposureChart, refreshData,
      initGammaExposureChart, loadMarketData, fetch.
    cbn. rewrite Hc. cbn. rewrite ?He. cbn.
    split; [reflexivity|].
    split; [now rewrite <- !app_assoc|].
    split; [reflexivity|]. split; [first [exact He | reflexivity]|].
    reflexivity.
  - intros He. cbn [step]. rewrite He.
    rewrite (DOMContentLoaded_requests p c Hc).
    unfold selected_expiry. rewrite He.
    unfold toggleTheme, refreshData,
      initGammaExposureChart, loadMarketData, initTradingViewWidget,
      updateThemeToggleIcon, fetch.
    split; [reflexivity|].
    split.
    { cbn. rewrite Hc. cbn. rewrite He. now rewrite <- app_assoc. }
    split.
    { destruct (body_class p); cbn; destruct (tradingview_container p); cbn;
        rewrite Hc; cbn; rewrite He; reflexivity. }
    split; [intros value|]; reflexivity.
Qed.

Lemma exposure_request_carries_selection_witness :
  let bare := with_expiry_select None (index_html None Samples.half) in
  gamma_exposure_chart Samples.loaded = Some CardLoading
  /\ expiry_select Samples.loaded = Some "all"
  /\ requests (step Samples.clock Samples.loaded (ExpirySelectChange "0dte"))
     = requests Samples.loaded ++ [exposure_url "0dte"]
  /\ gamma_exposure_chart bare = Some CardBlank
  /\ expiry_select bare = None
  /\ requests (DOMContentLoaded bare) = [exposure_url "All"].
Proof.
  cbv zeta. split; [reflexivity|]. split; [reflexivity|].
  destruct (exposure_request_carries_selection Samples.clock Samples.loaded
              CardLoading eq_refl) as (H & _).
  split; [apply (H "all" "0dte" eq_refl)|].
  split; [reflexivity|]. split; [reflexivity|].
  destruct (exposure_request_carries_selection Samples.clock
              (with_expiry_select None (index_html None Samples.half))
              CardBlank eq_refl) as (_ & H').
  apply (H' eq_refl).
Defined.

Lemma exposureSettled_json (p : Page) (id : nat) (e : string)
      (rest : list (nat * Pending)) (d : option (list ExposureRecord)) :
  take id (pending p) = Some (AwaitExposure e, rest) ->
  exposureSettled id (Json d) p
  = with_chart
      (Some (CardPlot (fst (createGammaExposurePlot
                              (isDarkMode (body_class p)) (random p) d e))))
      (snd (createGammaExposurePlot (isDarkMode (body_class p)) (random p) d e))
      (with_network (requests p) rest p).
Proof.
  intros H. unfold exposureSettled. rewrite H.
  cbn [with_network body_class random].
  now destruct (createGammaExposurePlot _ (random p) d e).
Qed.

(** X14.  A response is drawn when it arrives, under the expiry label its
    request was issued with, whatever the select shows by then.  Of two
    exposure fetches in flight the one that settles last stays on display,
    even when it is the older request. *)
Theorem last_settled_response_stays (p : Page) (newer older : nat)
        (e1 e2 : string) (rest2 rest1 : list (nat * Pending))
        (d1 d2 : option (list ExposureRecord)) :
  take newer (pending p) = Some (AwaitExposure e2, rest2) ->
  take older rest2 = Some (AwaitExposure e1, rest1) ->
  let dark := isDarkMode (body_class p) in
  let first := createGammaExposurePlot dark (random p) d2 e2 in
  let second := createGammaExposurePlot dark (snd first) d1 e1 in
  let q := exposureSettled older (Json d1) (exposureSettled newer (Json d2) p) in
  gamma_exposure_chart (exposureSettled newer (Json d2) p)
  = Some (CardPlot (fst first))
  /\ gamma_exposure_chart q = Some (CardPlot (fst second))
  /\ get "title" (plot_layout (fst second))
     = Some (JStr ("Gamma Exposure by Strike (" ++ e1 ++ ")"))
  /\ expiry_select q = expiry_select p
  /\ pending q = rest1.
Proof.
  intros H2 H1 dark first second q. subst q.
  rewrite (exposureSettled_json p newer e2 rest2 d2 H2).
  fold dark first.
  rewrite (exposureSettled_json
             (with_chart (Some (CardPlot (fst first))) (snd first)
                         (with_network (requests p) rest2 p))
             older e1 rest1 d1 H1).
  cbn [with_chart with_network body_class random gamma_exposure_chart
       expiry_select pending].
  fold dark second.
  repeat split.
  subst second. unfold createGammaExposurePlot.
  destruct d1 as [[|]|]; reflexivity.
Qed.

Lemma last_settled_response_stays_witness :
  take 3 (pending two_in_flight) = Some (AwaitExposure "monthly", [(2, AwaitExposure "weekly")])
  /\ take 2 [(2, AwaitExposure "weekly")] = Some (AwaitExposure "weekly", [])
  /\ expiry_select two_in_flight = Some "monthly"
  /\ exists plot,
      gamma_exposure_chart
        (exposureSettled 2 (Json (Some Samples.two_records))
           (exposureSettled 3 (Json (Some Samples.many_records)) two_in_flight))
      = Some (CardPlot plot)
      /\ get "title" (plot_layout plot)
         = Some (JStr "Gamma Exposure by Strike (weekly)").
Proof.
  assert (take 3 (pending two_in_flight)
          = Some (AwaitExposure "monthly", [(2, AwaitExposure "weekly")]))
    as H2 by (vm_compute; reflexivity).
  assert (take 2 [(2, AwaitExposure "weekly")]
          = Some (AwaitExposure "weekly", @nil (nat * Pending)))
    as H1 by reflexivity.
  split; [exact H2|]. split; [exact H1|].
  split; [vm_compute; reflexivity|].
  destruct (last_settled_response_stays two_in_flight 3 2 "weekly" "monthly"
              _ _ (Some Samples.two_records) (Some Samples.many_records)
              H2 H1) as (_ & Hq & Htitle & _).
  eexists. split; [exact Hq | exact Htitle].
Defined.

(** X15.  A failed market fetch shows nowhere on the page: the market card
    keeps the values it had, the chart is left alone, no request is issued,
    and the only trace is one line on the console. *)
Theorem failed_market_fetch_is_silent (localTime : string -> option string)
        (p : Page) (id : nat) (rest : list (nat * Pending))
        (r : FetchResult MarketSnapshot) :
  take id (pending p) = Some (AwaitMarket, rest) ->
  failed r = true ->
  let q := marketSettled localTime id r p in
  market_card q = market_card p
  /\ gamma_exposure_chart q = gamma_exposure_chart p
  /\ requests q = requests p
  /\ pending q = rest
  /\ console_errors q = console_errors p ++ [market_error].
Proof.
  intros Ht Hr q. subst q. unfold marketSettled. rewrite Ht.
  destruct r as [| | |data]; try discriminate Hr; cbn; repeat split.
Qed.

Lemma failed_market_fetch_is_silent_witness :
  take 1 (pending Samples.loaded) = Some (AwaitMarket, [(0, AwaitExposure "all")])
  /\ failed (@NetworkError MarketSnapshot) = true
  /\ market_card (marketSettled Samples.clock 1 NetworkError Samples.loaded)
     = market_card Samples.loaded.
Proof.
  split; [reflexivity|]. split; [reflexivity|].
  apply (failed_market_fetch_is_silent Samples.clock Samples.loaded 1
           [(0, AwaitExposure "all")] NetworkError eq_refl eq_refl).
Defined.



Lemma toFixed2_bounds (x : Q) :
  (0 <= hundredths (toFixed2 x))%Z
  /\ (Qabs x * 100 - (1 # 2) < inject_Z (hundredths (toFixed2 x)))%Q
  /\ (inject_Z (hundredths (toFixed2 x)) <= Qabs x * 100 + (1 # 2))%Q.
Proof.
  unfold toFixed2. cbn [hundredths].
  set (y := (Qabs x * 100 + (1 # 2))%Q).
  pose proof (Qabs_nonneg x) as Hx.
  pose proof (Qfloor_le y) as Hle.
  pose proof (Qlt_floor y) as Hlt.
  rewrite inject_Z_plus in Hlt. change (inject_Z 1) with 1%Q in Hlt.
  split.
  - change 0%Z with (Qfloor 0). apply Qfloor_resp_le. unfold y. lra.
  - split; [unfold y in *; lra | exact Hle].
Qed.

Lemma fixed_positive_iff (x : Q) :
  fixed_positive (toFixed2 x) = true <-> (1 # 200 <= x)%Q.
Proof.
  unfold fixed_positive, toFixed2, Qlt_bool. cbn [minus hundredths].
  rewrite andb_true_iff, negb_involutive, Qle_bool_iff, Z.ltb_lt.
  set (y := (Qabs x * 100 + (1 # 2))%Q).
  pose proof (Qfloor_le y) as Hle.
  split.
  - intros [Hx Hh].
    assert (1 <= Qfloor y)%Z as H1 by lia.
    rewrite Zle_Qle in H1. change (inject_Z 1) with 1%Q in H1.
    pose proof (Qabs_pos x Hx) as Ha. unfold y in *. lra.
  - intros Hx. assert (0 <= x)%Q as Hx0 by lra.
    split; [exact Hx0|].
    assert (Qfloor 1 <= Qfloor y)%Z as H1.
    { apply Qfloor_resp_le. pose proof (Qabs_pos x Hx0) as Ha.
      unfold y. lra. }
    change (Qfloor 1) with 1%Z in H1. lia.
Qed.

(** [toFixed(2)] rounds to the nearest hundredth: the digits printed
    are within half a hundredth of the magnitude, the minus sign is printed
    exactly for negative numbers (also when the digits are all zero), and
    the printed string is a positive number exactly from 0.005 on. *)
Theorem toFixed2_nearest_hundredth (x : Q) :
  (0 <= hundredths (toFixed2 x))%Z
  /\ (Qabs x * 100 - (1 # 2) < inject_Z (hundredths (toFixed2 x)))%Q
  /\ (inject_Z (hundredths (toFixed2 x)) <= Qabs x * 100 + (1 # 2))%Q
  /\ (minus (toFixed2 x) = true <-> (x < 0)%Q)
  /\ (fixed_positive (toFixed2 x) = true <-> (1 # 200 <= x)%Q).
Proof.
  destruct (toFixed2_bounds x) as (H0 & Hlo & Hhi).
  split; [exact H0|]. split; [exact Hlo|]. split; [exact Hhi|].
  split; [|apply fixed_positive_iff].
  unfold toFixed2, Qlt_bool. cbn [minus].
  rewrite negb_true_iff. split.
  - intros H. apply Qnot_le_lt. intros Hle.
    apply Qle_bool_iff in Hle. congruence.
  - intros H. destruct (Qle_bool 0 x) eqn:E; [|reflexivity].
    apply Qle_bool_iff in E. lra.
Qed.

(** X17.  How the change is signed on the page: the percentage gets its "+"
    exactly from 0.005 percent on, the absolute change gets its "+" exactly
    when the change is above zero, and the [positive] class follows the
    absolute change alone, zero included. *)
Theorem change_signs (localTime : string -> option string)
        (data : MarketSnapshot) (c : MarketCard)
        (cv : option (bool * Fixed2) * bool) (ca : option (bool * Fixed2)) :
  change_value c = Some cv ->
  change_absolute c = Some ca ->
  let shown := fst (updateMarketDisplay localTime data c) in
  exists plus_pct positive plus_abs,
    change_value shown
    = Some (Some (plus_pct, toFixed2 (price_change_pct data)), positive)
    /\ change_absolute shown
       = Some (Some (plus_abs, toFixed2 (price_change data)))
    /\ (plus_pct = true <-> (1 # 200 <= price_change_pct data)%Q)
    /\ (positive = true <-> (0 <= price_change data)%Q)
    /\ (plus_abs = true <-> (0 < price_change data)%Q).
Proof.
  intros Hcv Hca shown.
  exists (fixed_positive (toFixed2 (price_change_pct data))),
         (Qle_bool 0 (price_change data)),
         (Qlt_bool 0 (price_change data)).
  split; [|split].
  - subst shown. unfold updateMarketDisplay. rewrite Hcv.
    destruct (spot_timestamp c); [destruct (localTime _)|]; reflexivity.
  - subst shown. unfold updateMarketDisplay. rewrite Hca.
    destruct (spot_timestamp c); [destruct (localTime _)|]; reflexivity.
  - split; [apply fixed_positive_iff|].
    split; [apply Qle_bool_iff|].
    unfold Qlt_bool. rewrite negb_true_iff. split.
    + intros H. apply Qnot_le_lt. intros Hle.
      apply Qle_bool_iff in Hle. congruence.
    + intros H. destruct (Qle_bool (price_change data) 0) eqn:E; [|reflexivity].
      apply Qle_bool_iff in E. lra.
Qed.

Lemma change_signs_witness :
  change_value (market_card Samples.loaded) = Some (None, true)
  /\ change_absolute (market_card Samples.loaded) = Some None
  /\ exists plus_pct positive,
      change_value (fst (updateMarketDisplay Samples.clock Samples.snapshot
                           (market_card Samples.loaded)))
      = Some (Some (plus_pct, toFixed2 0.02), positive)
      /\ (plus_pct = true <-> (1 # 200 <= 0.02)%Q).
Proof.
  split; [reflexivity|]. split; [reflexivity|].
  destruct (change_signs Samples.clock Samples.snapshot
              (market_card Samples.loaded) (None, true) None eq_refl eq_refl)
    as (plus_pct & positive & plus_abs & Hv & _ & Hp & _).
  exists plus_pct, positive. split; [exact Hv | exact Hp].
Defined.

End PipelineMore.

(** ** More on the pause gate *)

Module PauseMore.
Import PauseVariant Cases.

Lemma all_present_Some (values : list Q) :
  all_present (map Some values) = Some values.
Proof.
  induction values as [|v values IH]; [reflexivity|].
  cbn. now rewrite IH.
Qed.

Lemma all_present_None (vals : list (option Q)) :
  In None vals -> all_present vals = None.
Proof.
  induction vals as [|[v|] vals IH]; cbn; [tauto | | reflexivity].
  intros [H|H]; [discriminate|]. now rewrite IH.
Qed.

(** X18.  Pausing stops requests, not responses.  A call that was in flight
    when the user paused is still handled when it returns: rows that all
    carry [total_gamma] are drawn, every one of them in the order of the
    payload; if a row has none ([null], or no such field), the drawing
    throws before Plotly is called and the chart drawn before stays.  A
    metrics call still updates the display. *)
Theorem pause_does_not_stop_responses (p : Page) :
  pauseUpdates p = true ->
  (forall id rest rows,
      take id (pending p) = Some (GammaCall, rest) ->
      let q := gammaSettled id (Success rows) p in
      pending q = rest
      /\ pauseUpdates q = true
      /\ requests q = requests p
      /\ console_errors q = console_errors p
      /\ (forall values,
             map total_gamma rows = map Some values ->
             exists chart,
               gammaPlot q = Some chart
               /\ bar_y chart = map strike_price rows
               /\ bar_x chart = values
               /\ List.length (bar_color chart) = List.length rows
               /\ List.length (bar_text chart) = List.length rows)
      /\ ((exists row, In row rows /\ total_gamma row = None) ->
          gammaPlot q = gammaPlot p))
  /\ (forall id rest m,
         take id (pending p) = Some (MetricsCall, rest) ->
         metric_1_value (metricsSettled id (Success m) p) = Some m).
Proof.
  intros Hp. split.
  - intros id rest rows Ht q. subst q. unfold gammaSettled. rewrite Ht.
    cbn [pending pauseUpdates requests console_errors gammaPlot].
    split; [reflexivity|]. split; [exact Hp|].
    split; [reflexivity|]. split; [reflexivity|].
    unfold drawGammaExposureChart. split.
    + intros values Hv. rewrite Hv, all_present_Some.
      eexists. split; [reflexivity|]. cbn.
      assert (List.length values = List.length rows) as Hl
          by (rewrite <- (length_map Some values), <- Hv; apply length_map).
      rewrite !length_map. repeat split; exact Hl.
    + intros (row & Hin & Hnone).
      rewrite all_present_None; [reflexivity|].
      rewrite <- Hnone. now apply in_map.
  - intros id rest m Ht. unfold metricsSettled. rewrite Ht. reflexivity.
Qed.

Lemma pause_does_not_stop_responses_witness :
  let rows := [ {| strike_price := 5600; total_gamma := Some (-3)%Q |} ] in
  let bad := [ {| strike_price := 5600; total_gamma := None |} ] in
  pauseUpdates (pauseUpdatesChange true awaiting) = true
  /\ take 0 (pending (pauseUpdatesChange true awaiting)) = Some (GammaCall, [])
  /\ map total_gamma rows = map Some [(-3)%Q]
  /\ (exists chart,
         gammaPlot (gammaSettled 0 (Success rows)
                                 (pauseUpdatesChange true awaiting))
         = Some chart
         /\ bar_x chart = [(-3)%Q])
  /\ (exists row, In row bad /\ total_gamma row = None)
  /\ gammaPlot (gammaSettled 0 (Success bad) (pauseUpdatesChange true awaiting))
     = None.
Proof.
  cbv zeta. split; [reflexivity|]. split; [reflexivity|].
  split; [reflexivity|].
  destruct (pause_does_not_stop_responses (pauseUpdatesChange true awaiting)
              eq_refl) as (H & _).
  split.
  - destruct (H 0 [] [ {| strike_price := 5600; total_gamma := Some (-3)%Q |} ]
                eq_refl) as (_ & _ & _ & _ & Hd & _).
    destruct (Hd [(-3)%Q] eq_refl) as (chart & Hc & _ & Hx & _).
    exists chart. split; [exact Hc | exact Hx].
  - assert (exists row, In row [ {| strike_price := 5600; total_gamma := None |} ]
                        /\ total_gamma row = None) as Hbad
        by (eexists; split; [now left | reflexivity]).
    split; [exact Hbad|].
    destruct (H 0 [] [ {| strike_price := 5600; total_gamma := None |} ]
                eq_refl) as (_ & _ & _ & _ & _ & Hk).
    exact (Hk Hbad).
Defined.

Lemma variant_step_paused (p : Page) (e : VariantEvent) :
  pauseUpdates p = true ->
  let q := variant_step p e in
  pauseUpdates q = true
  /\ requests q = requests p
  /\ pending q = pending p
  /\ gammaPlot q = gammaPlot p
  /\ metric_1_value q = metric_1_value p
  /\ console_errors q = console_errors p
  /\ darkMode q = darkMode p
  /\ currentExpiryFilter q = last_filter [e] (currentExpiryFilter p).
Proof.
  intros Hp. destruct e as [|val]; cbn [variant_step last_filter fold_left].
  - unfold refreshData. rewrite Hp. cbn. repeat split; try exact Hp.
  - unfold expiryFilterChange, loadGammaExposureData. cbn. rewrite Hp. cbn.
    repeat split; try exact Hp.
Qed.

(** X19.  While paused, timer firings and filter choices send nothing and
    draw nothing, however many there are; the filter choices are kept, and
    the first refresh after the user resumes sends the two requests, the
    exposure one with the filter chosen last. *)
Theorem resume_uses_last_filter (es : list VariantEvent) (p : Page) :
  pauseUpdates p = true ->
  let q := fold_left variant_step es p in
  requests q = requests p
  /\ pending q = pending p
  /\ gammaPlot q = gammaPlot p
  /\ metric_1_value q = metric_1_value p
  /\ pauseUpdates q = true
  /\ currentExpiryFilter q = last_filter es (currentExpiryFilter p)
  /\ requests (refreshData (pauseUpdatesChange false q))
     = requests p
       ++ [ {| url := "/api/market-metrics"; data := [] |};
            {| url := "/api/gamma-exposure";
               data := [("expiry_filter",
                         last_filter es (currentExpiryFilter p))] |} ].
Proof.
  revert p. induction es as [|e es IH]; intros p Hp.
  - unfold refreshData, loadMarketMetrics, loadGammaExposureData,
      pauseUpdatesChange. cbn. rewrite <- app_assoc.
    repeat split; try exact Hp.
  - destruct (variant_step_paused p e Hp)
      as (Hp' & Hr & Hpe & Hg & Hm & _ & _ & Hf).
    destruct (IH (variant_step p e) Hp') as (Ir & Ipe & Ig & Im & Ip & If & Ires).
    cbn [fold_left last_filter]. cbn [last_filter fold_left] in Hf.
    unfold last_filter in If, Ires. rewrite Hf in If, Ires.
    rewrite Hr in Ir, Ires. rewrite Hpe in Ipe. rewrite Hg in Ig.
    rewrite Hm in Im.
    repeat split; assumption.
Qed.

Lemma resume_uses_last_filter_witness :
  pauseUpdates Samples.paused = true
  /\ requests (refreshData
                 (pauseUpdatesChange false
                    (fold_left variant_step
                               [TimerFired; FilterChosen "weekly"; TimerFired;
                                FilterChosen "0dte"; TimerFired]
                               Samples.paused)))
     = [ {| url := "/api/market-metrics"; data := [] |};
         {| url := "/api/gamma-exposure"; data := [("expiry_filter", "0dte")] |} ].
Proof.
  split; [reflexivity|].
  apply (resume_uses_last_filter
           [TimerFired; FilterChosen "weekly"; TimerFired;
            FilterChosen "0dte"; TimerFired] Samples.paused eq_refl).
Defined.

End PauseMore.

(** ** The notes editor *)

Module NotesMore.
Import Notes.

Lemma notesLoaded_listens (template : string) (stored : option string) :
  input_listener (notesLoaded (notes_html template stored)) = true
  /\ exists shown, notes_editor (notesLoaded (notes_html template stored))
                   = Some shown.
Proof.
  unfold notesLoaded, loadSavedNotes, initRichTextEditor, notes_html. cbn.
  destruct stored as [saved|]; cbn.
  - destruct (String.eqb saved ""); cbn; split; try reflexivity; eexists; reflexivity.
  - split; [reflexivity | eexists; reflexivity].
Qed.

(** X20.  Notes survive the session: whatever the editor was changed to
    last, if it is not empty, is what the editor shows when the page is
    opened again. *)
Theorem notes_survive_reload (template template' html : string)
        (stored : option string) :
  html <> "" ->
  let edited := input html (notesLoaded (notes_html template stored)) in
  spxDashboardNotes edited = Some html
  /\ notes_editor edited = Some html
  /\ notes_editor (reopened template' edited) = Some html.
Proof.
  intros Hne edited.
  destruct (notesLoaded_listens template stored) as (Hl & shown & Hs).
  assert (spxDashboardNotes edited = Some html
          /\ notes_editor edited = Some html) as [Hst Hed].
  { subst edited. unfold input. rewrite Hs, Hl. cbn. split; reflexivity. }
  split; [exact Hst|]. split; [exact Hed|].
  unfold reopened, notesLoaded, loadSavedNotes, initRichTextEditor, notes_html.
  rewrite Hst. cbn.
  apply String.eqb_neq in Hne. now rewrite Hne.
Qed.

Lemma notes_survive_reload_witness :
  "<b>buy the dip</b>" <> ""
  /\ notes_editor
       (reopened "Add your trading notes here..."
          (input "<b>buy the dip</b>"
             (notesLoaded (notes_html "Add your trading notes here..." None))))
     = Some "<b>buy the dip</b>".
Proof.
  split; [discriminate|].
  apply (notes_survive_reload "Add your trading notes here..."
           "Add your trading notes here..." "<b>buy the dip</b>" None).
  discriminate.
Defined.

(** X21.  Emptied notes do not stay empty: when the user clears the editor
    the empty text is stored, but the next opening of the page shows the
    template text again instead. *)
Theorem cleared_notes_show_template (template template' : string)
        (stored : option string) :
  let cleared := input "" (notesLoaded (notes_html template stored)) in
  notes_editor cleared = Some ""
  /\ spxDashboardNotes cleared = Some ""
  /\ notes_editor (reopened template' cleared) = Some template'
  /\ spxDashboardNotes (reopened template' cleared) = Some "".
Proof.
  intros cleared.
  destruct (notesLoaded_listens template stored) as (Hl & shown & Hs).
  assert (spxDashboardNotes cleared = Some ""
          /\ notes_editor cleared = Some "") as [Hst Hed].
  { subst cleared. unfold input. rewrite Hs, Hl. cbn. split; reflexivity. }
  split; [exact Hed|]. split; [exact Hst|].
  unfold reopened, notesLoaded, loadSavedNotes, initRichTextEditor, notes_html.
  rewrite Hst. cbn. split; reflexivity.
Qed.

(** X22.  Without its toolbar the editor never saves: on a page that lacks
    the buttons or the select no listener is attached, so an edit changes
    the editor and leaves the stored notes as they were; notes stored
    earlier are still loaded into it. *)
Theorem editor_without_toolbar_never_saves (n : NotesPage) (html old : string) :
  editor_buttons n = 0 \/ editor_select n = false ->
  input_listener n = false ->
  notes_editor n = Some old ->
  input_listener (notesLoaded n) = false
  /\ spxDashboardNotes (input html (notesLoaded n)) = spxDashboardNotes n
  /\ notes_editor (input html (notesLoaded n)) = Some html
  /\ (forall saved, spxDashboardNotes n = Some saved -> saved <> "" ->
                    notes_editor (notesLoaded n) = Some saved).
Proof.
  intros Htool Hl He.
  assert (initRichTextEditor n = n) as Hi.
  { unfold initRichTextEditor.
    destruct Htool as [-> | ->]; cbn; [reflexivity|].
    now rewrite orb_true_r. }
  unfold notesLoaded. rewrite Hi. unfold loadSavedNotes, input. rewrite He.
  destruct (spxDashboardNotes n) as [saved|] eqn:Es.
  - destruct (String.eqb saved "") eqn:E; cbn; rewrite ?He, ?Hl, ?Es; cbn;
      repeat split; try assumption; try reflexivity;
      intros saved' H Hne; injection H as <-;
      [apply String.eqb_eq in E; contradiction | reflexivity].
  - cbn. rewrite He, Hl, Es. cbn. repeat split; try assumption.
    intros saved H. discriminate H.
Qed.

Lemma editor_without_toolbar_never_saves_witness :
  let bare := {| editor_buttons := 0; editor_select := true;
                 notes_editor := Some "template";
                 spxDashboardNotes := Some "old notes";
                 input_listener := false |} in
  (editor_buttons bare = 0 \/ editor_select bare = false)
  /\ input_listener bare = false
  /\ notes_editor bare = Some "template"
  /\ spxDashboardNotes (input "new notes" (notesLoaded bare)) = Some "old notes".
Proof.
  cbv zeta. split; [now left|]. split; [reflexivity|]. split; [reflexivity|].
  destruct (editor_without_toolbar_never_saves
              {| editor_buttons := 0; editor_select := true;
                 notes_editor := Some "template";
                 spxDashboardNotes := Some "old notes";
                 input_listener := false |} "new notes" "template"
              (or_introl eq_refl) eq_refl eq_refl) as (_ & H & _).
  exact H.
Defined.

End NotesMore.
